(** * TOAD-SAGE: the SecurityCompanion case store and case matcher

    A shallow embedding of [src/core/companion/SecurityCompanion.js]:
    the learning database ([previousCases], a JavaScript [Map]), the
    case matcher [findSimilarCases], the insertion path
    [updateLearningDatabase] and the orchestration
    [analyzeIncidentWithContext] with its [try]/[catch].

    Conventions.
    - A method of the class is a computation in the monad [M]: it takes
      the companion object ([this] together with the page it draws on)
      and gives back either a thrown error or a value, and the object
      as the method left it.  A [throw] keeps the mutations made before
      it, as in JavaScript.
    - An [async] method is run to completion: its outcome is the
      settled state of the promise it returns ([inl e] is a rejection).
    - A JavaScript [Map] is an association list in insertion order with
      the update-in-place behaviour of [Map.prototype.set].
    - Similarity scores are rationals.  The scores of the scorer are
      quotients of two small counts, for which comparison with the
      literal [0.7] agrees with comparison with [7/10]. *)

From Stdlib Require Import ZArith QArith Ascii.
From stdpp Require Import base gmap strings list pretty sorting.

#[local] Open Scope string_scope.
#[local] Open Scope Z_scope.
#[local] Open Scope list_scope.

(** ** Values handed to the companion *)

(** The fields of an incident object that the code reads
    ([incident.indicators], [incident.description]) and the metadata
    the data model names.  Every field may be missing. *)
Record Incident := mkIncident {
  description : option string;
  indicators : option (list string);
  severity : option string;
  source : option string
}.

(** What a caller can pass where an incident is expected. *)
Inductive JsValue :=
| VUndefined
| VNull
| VBoolean (b : bool)
| VNumber (n : Z)
| VString (s : string)
| VObject (o : Incident).

Inductive JsError :=
| TypeError (msg : string)
| InvalidIncidentError
| ServiceError (msg : string).

(** [typeof v === 'object' && v !== null] *)
Definition isStructured (v : JsValue) : bool :=
  match v with
  | VObject _ => true
  | _ => false
  end.

(** An ordered collection of feature tokens. *)
Definition Fingerprint := list string.

(** ** Objects built by the companion *)

Record Evidence := mkEvidence {
  ev_source : string;
  ev_description : string;
  ev_reference : string
}.

Record Recommendation := mkRecommendation {
  rec_priority : string;
  rec_description : string;
  rec_explanation : string
}.

(** The object the AI client resolves with.  [formatCompanionResponse]
    calls [.map] on [evidence] and [recommendations], which throws when
    the property is missing. *)
Record Analysis := mkAnalysis {
  summary : string;
  evidence : option (list Evidence);
  recommendations : option (list Recommendation)
}.

Record EvidenceLine := mkEvidenceLine {
  el_source : string;
  el_finding : string;
  el_link : string
}.

Record Suggestion := mkSuggestion {
  sg_priority : string;
  sg_action : string;
  sg_reasoning : string
}.

(** An entry of [response.relatedCases].  [date] and [summary] are read
    from properties ([c.date], [c.briefDescription]) that a match
    object does not carry, so they are [undefined]. *)
Record RelatedCase := mkRelatedCase {
  rc_date : option Z;
  rc_similarity : Q;
  rc_summary : option string
}.

Record CompanionResponse := mkResponse {
  message : string;
  responseEvidence : list EvidenceLine;
  suggestions : list Suggestion;
  relatedCases : list RelatedCase
}.

(** The value stored in [previousCases]. *)
Record CaseRecord := mkCase {
  incident : JsValue;
  response : CompanionResponse;
  timestamp : Z;
  patterns : Fingerprint
}.

(** [{...historicalCase, similarityScore: similarity}] *)
Record Match := mkMatch {
  matchCase : CaseRecord;
  similarityScore : Q
}.

(** ** The companion object and the page *)

(** An element appended to [document.body]: its class and the text put
    into it. *)
Record Element := mkElement {
  className : string;
  textContent : string
}.

(** The part of the page the companion touches: the class list of the
    element matching [.toad-icon], if the page has one, and the children
    appended to the body. *)
Record Dom := mkDom {
  toadIcon : option (list string);
  bodyChildren : list Element
}.

Record Companion := mkCompanion {
  previousCases : list (string * CaseRecord);
  learningPatterns : list (string * Z);
  currentContext : option JsValue;
  analysisHistory : list JsValue;
  dom : Dom;
  consoleErrors : list (string * JsError)
}.

(** [new SecurityCompanion()] on a page. *)
Definition newCompanion (page : Dom) : Companion :=
  mkCompanion [] [] None [] page [].

Definition setPreviousCases (cs : list (string * CaseRecord)) (c : Companion) : Companion :=
  mkCompanion cs (learningPatterns c) (currentContext c) (analysisHistory c)
    (dom c) (consoleErrors c).

Definition setLearningPatterns (lp : list (string * Z)) (c : Companion) : Companion :=
  mkCompanion (previousCases c) lp (currentContext c) (analysisHistory c)
    (dom c) (consoleErrors c).

Definition setDom (d : Dom) (c : Companion) : Companion :=
  mkCompanion (previousCases c) (learningPatterns c) (currentContext c)
    (analysisHistory c) d (consoleErrors c).

Definition logError (label : string) (e : JsError) (c : Companion) : Companion :=
  mkCompanion (previousCases c) (learningPatterns c) (currentContext c)
    (analysisHistory c) (dom c) (consoleErrors c ++ [(label, e)]).

(** ** Methods as computations *)

Definition M (A : Type) : Type := Companion → (JsError + A) * Companion.

Definition ret {A} (a : A) : M A := λ c, (inr a, c).

Definition throw {A} (e : JsError) : M A := λ c, (inl e, c).

Definition bind {A B} (m : M A) (k : A → M B) : M B :=
  λ c, match m c with
       | (inl e, c') => (inl e, c')
       | (inr a, c') => k a c'
       end.

Definition gets {A} (f : Companion → A) : M A := λ c, (inr (f c), c).

Definition modify (f : Companion → Companion) : M unit := λ c, (inr tt, f c).

(** A helper's outcome, thrown or returned. *)
Definition lift {A} (r : JsError + A) : M A :=
  match r with
  | inl e => throw e
  | inr a => ret a
  end.

(** [try { body } catch (error) { handler(error) }] *)
Definition tryCatch {A} (body : M A) (handler : JsError → M A) : M A :=
  λ c, match body c with
       | (inl e, c') => handler e c'
       | (inr a, c') => (inr a, c')
       end.

Notation "'let*' x ':=' m 'in' k" := (bind m (λ x, k))
  (at level 10, x name, m at level 100, k at level 200).

(** ** The JavaScript [Map] *)

Module JsMap.
Section JsMap.
Context {V : Type}.

(** [map.set(k, v)]: an existing key keeps its place in the iteration
    order and takes the new value; a new key goes to the end. *)
Fixpoint set (k : string) (v : V) (m : list (string * V)) : list (string * V) :=
  match m with
  | [] => [(k, v)]
  | (k', v') :: m' =>
      if decide (k' = k) then (k', v) :: m' else (k', v') :: set k v m'
  end.

(** [map.get(k)], with [None] for [undefined]. *)
Fixpoint get (k : string) (m : list (string * V)) : option V :=
  match m with
  | [] => None
  | (k', v') :: m' => if decide (k' = k) then Some v' else get k m'
  end.

Definition keys (m : list (string * V)) : list string := m.*1.

Definition values (m : list (string * V)) : list V := m.*2.
End JsMap.
End JsMap.

(** ** The sort of [Array.prototype.sort]

    The comparator returns a number; [a] goes after [b] when
    [comparefn(a, b) > 0].  The sort is stable (ECMAScript 2019), so
    for a comparator that is a consistent ordering the result is fixed
    by the input; stable insertion is taken as its definition. *)
Section JsSort.
Context {A : Type} (comparefn : A → A → Q).

Definition sortsAfter (a b : A) : bool :=
  match (0 ?= comparefn a b)%Q with
  | Lt => true
  | _ => false
  end.

Fixpoint sortInsert (x : A) (l : list A) : list A :=
  match l with
  | [] => [x]
  | y :: l' => if sortsAfter x y then y :: sortInsert x l' else x :: y :: l'
  end.

Definition jsSort (l : list A) : list A := foldr sortInsert [] l.
End JsSort.

(** ** The similarity scorer *)

Definition tokenSet (f : Fingerprint) : gset string := list_to_set f.

(** Modelled from the spec: the body of [calculateSimilarity] is not in
    the source (only its call in [findSimilarCases] is).  Section 4.2:
    the Jaccard overlap, the size of the intersection over the size of
    the union of the two feature-token sets, and 0 when both sets are
    empty. *)
Definition calculateSimilarity (a b : Fingerprint) : Q :=
  let union := tokenSet a ∪ tokenSet b in
  let intersection := tokenSet a ∩ tokenSet b in
  if decide (size union = 0%nat) then 0%Q
  else (Z.of_nat (size intersection) # Pos.of_nat (size union))%Q.

(** ** The pattern extractor *)

(** Modelled from the spec: the body of [extractPatterns] is not in the
    source.  Section 4.1: it fails with [InvalidIncidentError] exactly
    on an argument that is missing or not a structured record, has no
    side effect, and is deterministic.  Which tokens it derives from
    the fields (the vocabulary and the shape rules) is left to
    [features]. *)
Definition extractPatternsWith (features : Incident → Fingerprint)
    (v : JsValue) : JsError + Fingerprint :=
  match v with
  | VObject o => inr (features o)
  | _ => inl InvalidIncidentError
  end.

(** ** Pruning *)

(** Modelled from the spec: the body of [pruneOldData] is not in the
    source (only its call at the end of [updateLearningDatabase] is).
    Section 4.3: remove the entries older than [maxAge], then the
    oldest entries in excess of [maxSize]; a bound that is not
    configured ([None]) removes nothing. *)
Definition prune {V} (createdAt : V → Z) (maxSize : option nat) (maxAge : option Z)
    (now : Z) (cases : list (string * V)) : list (string * V) :=
  let young :=
    match maxAge with
    | None => cases
    | Some age => filter (λ kv, now - createdAt kv.2 ≤ age) cases
    end in
  match maxSize with
  | None => young
  | Some n => drop (length young - n) young
  end.

(** The clock readings of one call of [updateLearningDatabase]:
    [Date.now()] for the case id, [new Date()] for the timestamp and
    the time at which pruning measures ages. *)
Record Clock := mkClock {
  dateNow : Z;
  newDate : Z;
  pruneTime : Z
}.

(** [`case_${Date.now()}`] *)
Definition caseIdOf (now : Z) : string := "case_" +:+ pretty now.

(** ** What the outside world answers during one analysis *)

Record AnalysisRequest := mkRequest {
  req_incident : JsValue;
  req_vtResults : string;
  req_mitreMapping : string;
  req_threatIntel : string;
  req_similarCases : list Match
}.

(** The four API clients of the constructor.  A call either rejects or
    resolves; payloads the companion only passes on are strings. *)
Record Services := mkServices {
  analyzeIndicators : option (list string) → JsError + string;
  mapTechniques : option string → JsError + string;
  gatherIntel : option (list string) → JsError + string;
  generateAnalysis : AnalysisRequest → JsError + option Analysis
}.

(** [incident.indicators]: a [TypeError] on [undefined] and [null],
    [undefined] on a primitive. *)
Definition readIndicators (v : JsValue) : JsError + option (list string) :=
  match v with
  | VUndefined => inl (TypeError "Cannot read properties of undefined (reading 'indicators')")
  | VNull => inl (TypeError "Cannot read properties of null (reading 'indicators')")
  | VObject o => inr (indicators o)
  | _ => inr None
  end.

(** [incident.description] *)
Definition readDescription (v : JsValue) : JsError + option string :=
  match v with
  | VUndefined => inl (TypeError "Cannot read properties of undefined (reading 'description')")
  | VNull => inl (TypeError "Cannot read properties of null (reading 'description')")
  | VObject o => inr (description o)
  | _ => inr None
  end.

(** [await Promise.all([p1, p2, p3])]: the three results, or the
    rejection of the first promise that rejected. *)
Definition promiseAll3 {A B C} (p1 : JsError + A) (p2 : JsError + B)
    (p3 : JsError + C) : JsError + (A * B * C) :=
  match p1, p2, p3 with
  | inr a, inr b, inr c => inr (a, b, c)
  | inl e, _, _ => inl e
  | _, inl e, _ => inl e
  | _, _, inl e => inl e
  end.

(** [array.map(f)] on a property that may be missing. *)
Definition mapProperty {A B} (f : A → B) (p : option (list A)) : JsError + list B :=
  match p with
  | Some l => inr (f <$> l)
  | None => inl (TypeError "Cannot read properties of undefined (reading 'map')")
  end.

(** [formatCompanionResponse({ analysis, similarCases, confidence })] *)
Definition formatCompanionResponse (analysis : option Analysis)
    (similarCases : list Match) (confidence : Q) : JsError + CompanionResponse :=
  let greeting :=
    match (8 # 10 ?= confidence)%Q with
    | Lt => "🐸 Ah, I've seen something like this before!"
    | _ =>
        match (5 # 10 ?= confidence)%Q with
        | Lt => "🐸 This looks interesting. Here's what I found..."
        | _ => "🐸 This is a tricky one, but let me share what I discovered..."
        end
    end in
  match analysis with
  | None => inl (TypeError "Cannot read properties of undefined (reading 'summary')")
  | Some a =>
      let message1 := greeting +:+ " " +:+ summary a in
      match mapProperty
              (λ e, mkEvidenceLine (ev_source e) (ev_description e) (ev_reference e))
              (evidence a) with
      | inl e => inl e
      | inr ev =>
          let '(message2, related) :=
            if decide (0 < length similarCases)%nat
            then (message1 +:+ "

🔍 By the way, this reminds me of some cases we've worked on before:",
                  (λ c, mkRelatedCase None (similarityScore c) None) <$> similarCases)
            else (message1, []) in
          match mapProperty
                  (λ r, mkSuggestion (rec_priority r) (rec_description r) (rec_explanation r))
                  (recommendations a) with
          | inl e => inl e
          | inr sg => inr (mkResponse message2 ev sg related)
          end
      end
  end.

(** [classList.add(token)] *)
Definition classListAdd (token : string) (classes : list string) : list string :=
  if decide (token ∈ classes) then classes else classes ++ [token].

(** [showThinkingState(message)]: [document.querySelector('.toad-icon')]
    is [null] on a page without such an element, and reading
    [.classList] of [null] throws. *)
Definition showThinkingState (msg : string) : M unit :=
  λ c,
    match toadIcon (dom c) with
    | None => (inl (TypeError "Cannot read properties of null (reading 'classList')"), c)
    | Some classes =>
        (inr tt,
         setDom (mkDom (Some (classListAdd "thinking" classes))
                   (bodyChildren (dom c) ++ [mkElement "thinking-bubble" msg])) c)
    end.

(** ** The class [SecurityCompanion] *)

Section SecurityCompanion.
(** The helpers the class calls and does not define. *)
Variable features : Incident → Fingerprint.
Variable similarity : Fingerprint → Fingerprint → Q.
Variable updatePatterns :
  JsValue → CompanionResponse → list (string * Z) → list (string * Z).
Variable maxSize : option nat.
Variable maxAge : option Z.

Definition extractPatterns : JsValue → JsError + Fingerprint :=
  extractPatternsWith features.

(** [updatePatternLearning(incident, response)]: absent from the
    source; it maintains the [learningPatterns] map. *)
Definition updatePatternLearning (i : JsValue) (r : CompanionResponse) : M unit :=
  modify (λ c, setLearningPatterns (updatePatterns i r (learningPatterns c)) c).

Definition pruneOldData (now : Z) : M unit :=
  modify (λ c, setPreviousCases
                 (prune timestamp maxSize maxAge now (previousCases c)) c).

(** [(a, b) => b.similarityScore - a.similarityScore] *)
Definition byScoreDescending (a b : Match) : Q :=
  (similarityScore b - similarityScore a)%Q.

(** One turn of the [for ... of] loop of [findSimilarCases]. *)
Definition collectSimilar (patterns0 : Fingerprint)
    (similarCases : list Match) (entry : string * CaseRecord) : list Match :=
  let historicalCase := entry.2 in
  let s := similarity patterns0 (patterns historicalCase) in
  match (7 # 10 ?= s)%Q with
  | Lt => similarCases ++ [mkMatch historicalCase s]
  | _ => similarCases
  end.

Definition findSimilarCases (i : JsValue) : M (list Match) :=
  let* patterns0 := lift (extractPatterns i) in
  let* cases := gets previousCases in
  let similarCases := foldl (collectSimilar patterns0) [] cases in
  ret (jsSort byScoreDescending similarCases).

(** A call with a second argument, [findSimilarCases(incident, t)]:
    the method declares one parameter, and a surplus argument is
    dropped. *)
Definition findSimilarCasesWith (i : JsValue) (threshold : Q) : M (list Match) :=
  findSimilarCases i.

(** The async method has no [return]: its promise resolves with
    [undefined]. *)
Definition updateLearningDatabase (clock : Clock) (i : JsValue)
    (r : CompanionResponse) : M JsValue :=
  let caseId := caseIdOf (dateNow clock) in
  let* patterns0 := lift (extractPatterns i) in
  let* _ := modify (λ c, setPreviousCases
                 (JsMap.set caseId (mkCase i r (newDate clock) patterns0)
                    (previousCases c)) c) in
  let* _ := updatePatternLearning i r in
  let* _ := pruneOldData (pruneTime clock) in
  ret VUndefined.

(** The rest of what the class calls and does not define. *)
Variable services : Services.
Variable calculateConfidence : option Analysis → JsError + Q.
Variable showError : string → M unit.

(** The body of the [try] block of [analyzeIncidentWithContext]. *)
Definition analysisSteps (clock : Clock) (i : JsValue) : M CompanionResponse :=
  let* ind := lift (readIndicators i) in
  let p1 := analyzeIndicators services ind in
  let* desc := lift (readDescription i) in
  let p2 := mapTechniques services desc in
  let* ind' := lift (readIndicators i) in
  let p3 := gatherIntel services ind' in
  let* results := lift (promiseAll3 p1 p2 p3) in
  let '(vtResults, mitreMapping, threatIntel) := results in
  let* similarCases := findSimilarCases i in
  let* aiAnalysis :=
    lift (generateAnalysis services
            (mkRequest i vtResults mitreMapping threatIntel similarCases)) in
  let* confidence := lift (calculateConfidence aiAnalysis) in
  let* response0 := lift (formatCompanionResponse aiAnalysis similarCases confidence) in
  let* _ := updateLearningDatabase clock i response0 in
  ret response0.

(** The [catch] block: it has no [return], so the method gives
    [undefined], here [None]. *)
Definition analysisFailed (error : JsError) : M (option CompanionResponse) :=
  let* _ := modify (logError "Analysis failed:" error) in
  let* _ := showError "Oops! I ran into a problem while analyzing this incident. Let me try a different approach..." in
  ret None.

Definition analyzeIncidentWithContext (clock : Clock) (i : JsValue)
    : M (option CompanionResponse) :=
  let* _ := showThinkingState "Hmm, let me take a look at this incident..." in
  tryCatch
    (let* response0 := analysisSteps clock i in ret (Some response0))
    analysisFailed.
End SecurityCompanion.

(** ** A small extractor and fixed helpers for the worked examples *)

Module Sample.
(** The tokens are the indicators as given, none when the list is
    missing. *)
Definition features (o : Incident) : Fingerprint := default [] (indicators o).

Definition updatePatterns (i : JsValue) (r : CompanionResponse)
    (lp : list (string * Z)) : list (string * Z) :=
  JsMap.set "cases" (default 0 (JsMap.get "cases" lp) + 1) lp.

Definition incidentOf (tokens : list string) : JsValue :=
  VObject (mkIncident (Some "phishing email with malicious link") (Some tokens) None None).

Definition outcome : CompanionResponse := mkResponse "resolved" [] [] [].

Definition page : Dom := mkDom (Some ["toad-icon"]) [].

Definition bare : Dom := mkDom None [].

Definition analysis : Analysis := mkAnalysis "Credential phishing." (Some []) (Some []).

Definition services : Services :=
  mkServices (λ _, inr "vt") (λ _, inr "mitre") (λ _, inr "otx")
    (λ _, inr (Some analysis)).

Definition failing : Services :=
  mkServices (λ _, inl (ServiceError "quota exceeded")) (λ _, inr "mitre")
    (λ _, inr "otx") (λ _, inr (Some analysis)).

Definition calculateConfidence (a : option Analysis) : JsError + Q := inr (9 # 10)%Q.

(** As [showError] of the popup: a notification appended to the body. *)
Definition showError (msg : string) : M unit :=
  modify (λ c, setDom (mkDom (toadIcon (dom c))
                         (bodyChildren (dom c) ++ [mkElement "notification" msg])) c).

Definition storeOf (cases : list (Z * list string)) : Companion :=
  setPreviousCases
    ((λ p, (caseIdOf p.1, mkCase (incidentOf p.2) outcome p.1 p.2)) <$> cases)
    (newCompanion page).
End Sample.

(** ** Vocabulary of the properties *)

#[local] Instance Qeq_decision (x y : Q) : Decision (x == y)%Q := Qeq_dec x y.

(** The comparator [(a, b) => key(b) - key(a)]. *)
Definition descendingBy {A} (key : A → Q) (a b : A) : Q := (key b - key a)%Q.

(** [a] before [b] is in descending order of [key]. *)
Definition inOrder {A} (key : A → Q) (a b : A) : Prop := (key b <= key a)%Q.

(** What one store entry contributes to the result of the matcher. *)
Definition candidate (similarity : Fingerprint → Fingerprint → Q)
    (patterns0 : Fingerprint) (entry : string * CaseRecord) : option Match :=
  let s := similarity patterns0 (patterns entry.2) in
  match (7 # 10 ?= s)%Q with
  | Lt => Some (mkMatch entry.2 s)
  | _ => None
  end.

(** Descending scores, and on a tie the more recent case first. *)
Definition recentFirstOnTies (result : list Match) : Prop :=
  ∀ j a b, result !! j = Some a → result !! S j = Some b →
    (similarityScore b <= similarityScore a)%Q ∧
    ((similarityScore a == similarityScore b)%Q →
     timestamp (matchCase b) ≤ timestamp (matchCase a)).

(** Every score is strictly above the threshold. *)
Definition aboveThreshold (threshold : Q) (result : list Match) : Prop :=
  ∀ m, m ∈ result → (threshold < similarityScore m)%Q.

(** [allCases()]: the records in insertion order. *)
Definition allCases (c : Companion) : list CaseRecord :=
  JsMap.values (previousCases c).

(** Timestamps do not decrease along the insertion order. *)
Definition timestampsAscend (c : Companion) : Prop :=
  Sorted Z.le (timestamp <$> allCases c).

(** ** The companion panel: [CompanionUI]

    The class that draws a response of [formatCompanionResponse].  Of the
    document it touches the [.message-container] element (its children)
    and the class list of [.thinking-indicator]; either may be missing
    from the page.  Texts handed to it are strings or missing
    ([undefined] or [null]). *)

(** The character of code 34, the double quote. *)
Definition dquote : string := String "034"%char EmptyString.

(** [s.replace(/c/g, rep)] for a single character [c] and a
    replacement without [$] patterns. *)
Fixpoint replaceAll (c : ascii) (rep : string) (s : string) : string :=
  match s with
  | EmptyString => EmptyString
  | String a s' =>
      if decide (a = c) then rep +:+ replaceAll c rep s'
      else String a (replaceAll c rep s')
  end.

(** [!str] on a text: missing, or the empty string. *)
Definition isBlank (str : option string) : bool :=
  match str with
  | None => true
  | Some s => bool_decide (s = "")
  end.

(** [sanitizeHTML(str)] *)
Definition sanitizeHTML (str : option string) : string :=
  match str with
  | None => ""
  | Some s =>
      if isBlank str then ""
      else
        replaceAll "'"%char "&#039;"
          (replaceAll "034"%char "&quot;"
             (replaceAll ">"%char "&gt;"
                (replaceAll "<"%char "&lt;"
                   (replaceAll "&"%char "&amp;" s))))
  end.

(** [sanitizeURL(url)], over the URL constructor: [parse url] is the
    [href] of [new URL(url)], or [None] when the constructor throws. *)
Definition sanitizeURL (parse : string → option string) (url : option string) : string :=
  match url with
  | None => "#"
  | Some u => if isBlank url then "#" else default "#" (parse u)
  end.

(** What the panel appends: an element filled through [innerHTML] or a
    heading, and at the top level also a box of such elements. *)
Inductive Leaf :=
| Html (className : string) (innerHTML : string)
| Heading (textContent : string).

Inductive Node :=
| Single (leaf : Leaf)
| Box (className : string) (children : list Leaf).

Record PanelEvidence := mkPanelEvidence {
  pe_source : option string;
  pe_finding : option string;
  pe_link : option string
}.

Record PanelCase := mkPanelCase {
  pc_date : option string;
  pc_summary : option string;
  pc_similarity : Q
}.

(** The argument of [showAnalysis]: arrays may be missing and may hold
    [null] items. *)
Record PanelAnalysis := mkPanelAnalysis {
  pa_message : option string;
  pa_evidence : option (list (option PanelEvidence));
  pa_relatedCases : option (list (option PanelCase))
}.

Record CompanionUI := mkCompanionUI {
  visible : bool;
  uiState : string;
  messageContainer : option (list Node);
  thinkingIndicator : option (list string);
  uiConsole : list string
}.

(** The template of an evidence item. *)
Definition evidenceItemHtml (source finding href : string) : string :=
  ("
                    <div class=" +:+ dquote +:+ "evidence-source" +:+ dquote +:+ ">") +:+ source +:+ ("</div>
                    <div class=" +:+ dquote +:+ "evidence-finding" +:+ dquote +:+ ">") +:+ finding +:+ ("</div>
                    <a href=" +:+ dquote) +:+ href +:+ (dquote +:+ " target=" +:+ dquote +:+ "_blank" +:+ dquote +:+ " class=" +:+ dquote +:+ "evidence-link" +:+ dquote +:+ ">Learn more</a>
                ").

(** The template of a similar case. *)
Definition caseItemHtml (date summary percent : string) : string :=
  ("
                    <div class=" +:+ dquote +:+ "case-date" +:+ dquote +:+ ">") +:+ date +:+ ("</div>
                    <div class=" +:+ dquote +:+ "case-summary" +:+ dquote +:+ ">") +:+ summary +:+ ("</div>
                    <div class=" +:+ dquote +:+ "case-similarity" +:+ dquote +:+ ">") +:+ percent +:+ ("% similar</div>
                ").

(** [showMessage(message, type)] *)
Definition showMessage (msg : option string) (type : string) (ui : CompanionUI)
    : CompanionUI :=
  match messageContainer ui with
  | None =>
      mkCompanionUI (visible ui) (uiState ui) None (thinkingIndicator ui)
        (uiConsole ui ++ ["Message container not found"])
  | Some children =>
      mkCompanionUI (visible ui) (uiState ui)
        (Some (children
               ++ [Single (Html ("companion-message " +:+ type) (sanitizeHTML msg))]))
        (thinkingIndicator ui) (uiConsole ui)
  end.

(** [classList.remove(token)] *)
Definition classListRemove (token : string) (classes : list string) : list string :=
  filter (λ c, c ≠ token) classes.

(** [showThinking(message = "Analyzing...")]; [None] is a call without
    the argument. *)
Definition showThinking (msg : option string) (ui : CompanionUI) : CompanionUI :=
  showMessage (Some (default "Analyzing..." msg)) "info"
    (mkCompanionUI (visible ui) "thinking" (messageContainer ui)
       (classListRemove "hidden" <$> thinkingIndicator ui) (uiConsole ui)).

Section ShowAnalysis.
(** [Math.round(similarity * 100)], a floating-point computation. *)
Variable roundPercent : Q → Z.
Variable parse : string → option string.

Definition evidenceNode (item : PanelEvidence) : Leaf :=
  Html "evidence-item"
    (evidenceItemHtml (sanitizeHTML (pe_source item)) (sanitizeHTML (pe_finding item))
       (sanitizeURL parse (pe_link item))).

Definition caseNode (item : PanelCase) : Leaf :=
  Html "case-item"
    (caseItemHtml (sanitizeHTML (pc_date item)) (sanitizeHTML (pc_summary item))
       (pretty (roundPercent (pc_similarity item)))).

(** The evidence block: nothing for a missing or empty array; [null]
    items are skipped. *)
Definition evidenceBlock (evidence0 : option (list (option PanelEvidence))) : list Node :=
  match evidence0 with
  | None | Some [] => []
  | Some items => [Box "evidence-list" (evidenceNode <$> omap id items)]
  end.

Definition casesBlock (cases : option (list (option PanelCase))) : list Node :=
  match cases with
  | None | Some [] => []
  | Some items =>
      [Box "similar-cases" (Heading "Similar Cases" :: (caseNode <$> omap id items))]
  end.

(** [showAnalysis(analysis)] *)
Definition showAnalysis (analysis : PanelAnalysis) (ui : CompanionUI) : CompanionUI :=
  let ui1 := mkCompanionUI (visible ui) "analysis" (messageContainer ui)
               (thinkingIndicator ui) (uiConsole ui) in
  match messageContainer ui1 with
  | None => ui1
  | Some _ =>
      let cleared := mkCompanionUI (visible ui1) (uiState ui1) (Some [])
                       (thinkingIndicator ui1) (uiConsole ui1) in
      let ui2 := showMessage (pa_message analysis) "info" cleared in
      mkCompanionUI (visible ui2) (uiState ui2)
        ((λ children, children ++ evidenceBlock (pa_evidence analysis)
                               ++ casesBlock (pa_relatedCases analysis))
           <$> messageContainer ui2)
        (thinkingIndicator ui2) (uiConsole ui2)
  end.
End ShowAnalysis.


(** ** Sequences of insertions *)

Record InsertCall := mkInsertCall {
  callClock : Clock;
  callIncident : JsValue;
  callResponse : CompanionResponse
}.

Section InsertAll.
Variable features : Incident → Fingerprint.
Variable updatePatterns :
  JsValue → CompanionResponse → list (string * Z) → list (string * Z).
Variable maxSize : option nat.
Variable maxAge : option Z.

(** One call of [updateLearningDatabase] after the other, whether a
    call resolves or rejects. *)
Definition insertAll (calls : list InsertCall) (w : Companion) : Companion :=
  foldl (λ w0 call,
           (updateLearningDatabase features updatePatterns maxSize maxAge
              (callClock call) (callIncident call) (callResponse call) w0).2)
    w calls.
End InsertAll.

#[local] Instance Qlt_decision (x y : Q) : Decision (x < y)%Q.
Proof. destruct (Qlt_le_dec x y); [left|right]; [done|by apply Qle_not_lt]. Defined.

(** The characters [sanitizeHTML] rewrites. *)
Definition isSpecial (c : ascii) : Prop :=
  c = "&"%char ∨ c = "<"%char ∨ c = ">"%char ∨ c = "034"%char ∨ c = "'"%char.

(** What [sanitizeHTML] writes for one character. *)
Definition escapeChar (c : ascii) : string :=
  if decide (c = "&"%char) then "&amp;"
  else if decide (c = "<"%char) then "&lt;"
  else if decide (c = ">"%char) then "&gt;"
  else if decide (c = "034"%char) then "&quot;"
  else if decide (c = "'"%char) then "&#039;"
  else String c EmptyString.

Fixpoint escapeAll (s : string) : string :=
  match s with
  | EmptyString => EmptyString
  | String c s' => escapeChar c +:+ escapeAll s'
  end.

(** The characters of a string. *)
Fixpoint chars (s : string) : list ascii :=
  match s with
  | EmptyString => []
  | String c s' => c :: chars s'
  end.

(** * Properties *)

(** ** The sort *)

Section SortFacts.
Context {A : Type} (key : A → Q).

Lemma sortsAfter_lt x y :
  sortsAfter (descendingBy key) x y = true ↔ (key x < key y)%Q.
Proof.
  unfold sortsAfter, descendingBy.
  rewrite (Qlt_minus_iff (key x) (key y)), Qlt_alt.
  change (key y + - key x)%Q with (key y - key x)%Q.
  destruct (0 ?= key y - key x)%Q; split; intros; congruence.
Qed.

Lemma sortsAfter_ge x y :
  sortsAfter (descendingBy key) x y = false ↔ (key y <= key x)%Q.
Proof.
  split; intros H.
  - apply Qnot_lt_le. intros Hlt. apply sortsAfter_lt in Hlt. congruence.
  - destruct (sortsAfter (descendingBy key) x y) eqn:E; [|done].
    apply sortsAfter_lt in E. apply Qlt_not_le in E. contradiction.
Qed.

Lemma sortInsert_perm x l : sortInsert (descendingBy key) x l ≡ₚ x :: l.
Proof.
  induction l as [|y l IH]; simpl; [done|].
  destruct (sortsAfter (descendingBy key) x y); [|done].
  rewrite IH. apply Permutation_swap.
Qed.

Lemma jsSort_perm l : jsSort (descendingBy key) l ≡ₚ l.
Proof.
  induction l as [|x l IH]; simpl; [done|].
  rewrite sortInsert_perm. by rewrite IH.
Qed.

Lemma sortInsert_sorted x l :
  Sorted (inOrder key) l → Sorted (inOrder key) (sortInsert (descendingBy key) x l).
Proof.
  induction 1 as [|y l Hl IH Hhd]; simpl.
  - by repeat constructor.
  - destruct (sortsAfter (descendingBy key) x y) eqn:E.
    + constructor; [done|].
      apply sortsAfter_lt, Qlt_le_weak in E.
      destruct Hhd as [|z l Hyz]; simpl.
      * by constructor.
      * destruct (sortsAfter (descendingBy key) x z); by constructor.
    + apply sortsAfter_ge in E. by repeat constructor.
Qed.

Lemma jsSort_sorted l : Sorted (inOrder key) (jsSort (descendingBy key) l).
Proof.
  induction l as [|x l IH]; simpl; [constructor|].
  by apply sortInsert_sorted.
Qed.

(** Stability: the elements of one score keep their order. *)
Lemma sortInsert_filter q x l :
  filter (λ a, key a == q)%Q (sortInsert (descendingBy key) x l)
  = filter (λ a, key a == q)%Q (x :: l).
Proof.
  induction l as [|y l IH]; simpl; [done|].
  destruct (sortsAfter (descendingBy key) x y) eqn:E; [|done].
  apply sortsAfter_lt in E.
  rewrite filter_cons, IH, !filter_cons.
  destruct (decide (key y == q)%Q) as [Hy|Hy], (decide (key x == q)%Q) as [Hx|Hx];
    try done.
  rewrite Hy, Hx in E. by apply Qlt_irrefl in E.
Qed.

Lemma jsSort_filter q l :
  filter (λ a, key a == q)%Q (jsSort (descendingBy key) l)
  = filter (λ a, key a == q)%Q l.
Proof.
  induction l as [|x l IH]; simpl; [done|].
  rewrite sortInsert_filter, !filter_cons. by rewrite IH.
Qed.

(** Two neighbours of equal score were in this order before. *)
Lemma jsSort_ties_keep_order l j a b :
  jsSort (descendingBy key) l !! j = Some a →
  jsSort (descendingBy key) l !! S j = Some b →
  (key a == key b)%Q →
  [a; b] `sublist_of` l.
Proof.
  intros Ha Hb Hab.
  assert (∃ l1 l2, jsSort (descendingBy key) l = l1 ++ a :: b :: l2) as (l1 & l2 & Hsplit).
  { clear Hab. revert j Ha Hb.
    induction (jsSort (descendingBy key) l) as [|x r IH]; intros j Ha Hb; [done|].
    destruct j as [|j]; simpl in *.
    - destruct r as [|y r]; simpl in *; [done|].
      exists [], r. simpl. congruence.
    - destruct (IH j Ha Hb) as (l1 & l2 & ->). by exists (x :: l1), l2. }
  pose proof (jsSort_filter (key a) l) as Hf.
  rewrite Hsplit, filter_app, !filter_cons in Hf.
  destruct (decide (key a == key a)%Q) as [_|Hn]; [|by destruct Hn].
  destruct (decide (key b == key a)%Q) as [_|Hn]; [|by destruct Hn].
  etransitivity; [|apply (sublist_filter (λ x, key x == key a)%Q)].
  rewrite <- Hf. apply sublist_inserts_l.
  do 2 apply sublist_skip. apply sublist_nil_l.
Qed.
End SortFacts.

Lemma Sorted_adjacent {A} (R : A → A → Prop) (l : list A) i a b :
  Sorted R l → l !! i = Some a → l !! S i = Some b → R a b.
Proof.
  intros Hs. revert i. induction Hs as [|x l Hl IH Hhd]; intros i Ha Hb; [done|].
  destruct i as [|i]; simpl in *.
  - destruct Hhd as [|y l Hxy]; simpl in *; [done|]. congruence.
  - eauto.
Qed.

Lemma StronglySorted_pair {A} (R : A → A → Prop) (l : list A) a b :
  StronglySorted R l → [a; b] `sublist_of` l → R a b.
Proof.
  induction 1 as [|x l Hl IH Hall]; intros Hsub.
  - by apply sublist_nil_r in Hsub.
  - apply sublist_cons_r in Hsub as [Hsub|(l' & [= -> <-] & Hsub)]; [by apply IH|].
    apply singleton_sublist_l in Hsub.
    rewrite Forall_forall in Hall. by apply Hall.
Qed.

(** ** The case matcher *)

Section MatcherFacts.
Variable features : Incident → Fingerprint.
Variable similarity : Fingerprint → Fingerprint → Q.

Lemma collectSimilar_candidates patterns0 acc cases :
  foldl (collectSimilar similarity patterns0) acc cases
  = acc ++ omap (candidate similarity patterns0) cases.
Proof.
  revert acc. induction cases as [|entry cases IH]; intros acc; simpl.
  - by rewrite app_nil_r.
  - rewrite IH. unfold collectSimilar, candidate.
    destruct (7 # 10 ?= _)%Q; simpl; by rewrite <- ?app_assoc.
Qed.

Lemma findSimilarCases_structured o w :
  findSimilarCases features similarity (VObject o) w
  = (inr (jsSort (byScoreDescending)
            (omap (candidate similarity (features o)) (previousCases w))), w).
Proof.
  unfold findSimilarCases, bind, lift, gets, ret; simpl.
  by rewrite collectSimilar_candidates.
Qed.

Lemma findSimilarCases_unstructured v w :
  isStructured v = false →
  findSimilarCases features similarity v w = (inl InvalidIncidentError, w).
Proof. by destruct v. Qed.

Lemma findSimilarCases_result v w result w' :
  findSimilarCases features similarity v w = (inr result, w') →
  ∃ o, v = VObject o ∧ w' = w ∧
    result = jsSort byScoreDescending
               (omap (candidate similarity (features o)) (previousCases w)).
Proof.
  destruct v as [| | | | |o]; try by (rewrite findSimilarCases_unstructured).
  rewrite findSimilarCases_structured. intros [= <- <-]. eauto.
Qed.

Lemma candidate_above patterns0 entry m :
  candidate similarity patterns0 entry = Some m → (7 # 10 < similarityScore m)%Q.
Proof.
  unfold candidate. destruct (7 # 10 ?= _)%Q eqn:E; intros [= <-]; simpl.
  by apply Qlt_alt.
Qed.

Lemma candidates_sublist patterns0 (cases : list (string * CaseRecord)) :
  matchCase <$> omap (candidate similarity patterns0) cases
    `sublist_of` JsMap.values cases.
Proof.
  induction cases as [|entry cases IH]; simpl; [done|].
  unfold candidate at 1.
  destruct (7 # 10 ?= _)%Q; simpl; try by apply sublist_cons.
  by apply sublist_skip.
Qed.
End MatcherFacts.

(** C1, as the code has it.  The sequence returned by
    [findSimilarCases] is in descending order of [similarityScore]: of
    two adjacent results the first has the greater or equal score.  The
    comparator looks at the score alone and the sort is stable, so two
    adjacent results of equal score stand in the insertion order of the
    store; when the timestamps of the store do not decrease along that
    order, the first of the two is the older or equally old case. *)
Theorem findSimilarCases_sorted_stable
    (features : Incident → Fingerprint) (similarity : Fingerprint → Fingerprint → Q)
    (i : JsValue) (w w' : Companion) (result : list Match) :
  findSimilarCases features similarity i w = (inr result, w') →
  ∀ j a b, result !! j = Some a → result !! S j = Some b →
    (similarityScore b <= similarityScore a)%Q ∧
    ((similarityScore a == similarityScore b)%Q →
     [matchCase a; matchCase b] `sublist_of` allCases w ∧
     (timestampsAscend w → timestamp (matchCase a) ≤ timestamp (matchCase b))).
Proof.
  intros Hrun j a b Ha Hb.
  apply findSimilarCases_result in Hrun as (o & -> & -> & ->).
  split.
  - eapply (Sorted_adjacent (inOrder similarityScore)); [|exact Ha|exact Hb].
    apply (jsSort_sorted similarityScore).
  - intros Htie.
    assert ([matchCase a; matchCase b] `sublist_of` allCases w) as Hsub.
    { etransitivity; [|apply (candidates_sublist similarity (features o))].
      apply (fmap_sublist matchCase [a; b]).
      by eapply (jsSort_ties_keep_order similarityScore); [exact Ha|exact Hb|]. }
    split; [done|]. intros Hasc.
    apply (StronglySorted_pair Z.le (timestamp <$> allCases w)).
    + apply Sorted_StronglySorted; [apply _|done].
    + by apply (fmap_sublist timestamp [matchCase a; matchCase b]).
Qed.

(** The theorem on a store with a tie. *)
Lemma findSimilarCases_sorted_stable_witness :
  let w := Sample.storeOf [(1, ["1.2.3.4"]); (2, ["1.2.3.4"])] in
  ∃ (result : list Match) (a b : Match),
    findSimilarCases Sample.features calculateSimilarity
      (Sample.incidentOf ["1.2.3.4"]) w = (inr result, w) ∧
    result !! 0%nat = Some a ∧ result !! 1%nat = Some b ∧
    (similarityScore b <= similarityScore a)%Q ∧
    ((similarityScore a == similarityScore b)%Q →
     [matchCase a; matchCase b] `sublist_of` allCases w ∧
     (timestampsAscend w → timestamp (matchCase a) ≤ timestamp (matchCase b))).
Proof.
  intros w. eexists _, _, _.
  split; [apply findSimilarCases_structured|].
  split; [vm_compute; reflexivity|].
  split; [vm_compute; reflexivity|].
  eapply (findSimilarCases_sorted_stable Sample.features calculateSimilarity
            (Sample.incidentOf ["1.2.3.4"]) w w _
            (findSimilarCases_structured _ _ _ _) 0%nat);
    vm_compute; reflexivity.
Defined.

(** C1 as stated fails on a tie: two stored cases of the same patterns,
    stamped 1 and 2, both score 1 against the incident, and the one
    stamped 1 comes first. *)
Lemma findSimilarCases_tie_older_first :
  ∃ result : list Match,
    (findSimilarCases Sample.features calculateSimilarity
       (Sample.incidentOf ["1.2.3.4"])
       (Sample.storeOf [(1, ["1.2.3.4"]); (2, ["1.2.3.4"])])).1 = inr result ∧
    ¬ recentFirstOnTies result.
Proof.
  eexists. split; [vm_compute; reflexivity|].
  intros Hclaim.
  destruct (Hclaim 0%nat _ _ eq_refl eq_refl) as [_ Hrecent].
  simpl in Hrecent. assert (2 ≤ 1) by (apply Hrecent; reflexivity). lia.
Qed.

(** C2, as the code has it.  The threshold of [findSimilarCases] is the
    literal 0.7: every result it returns has a [similarityScore]
    strictly greater than 7/10, for every incident and every store. *)
Theorem findSimilarCases_above_fixed_threshold
    (features : Incident → Fingerprint) (similarity : Fingerprint → Fingerprint → Q)
    (i : JsValue) (w w' : Companion) (result : list Match) :
  findSimilarCases features similarity i w = (inr result, w') →
  aboveThreshold (7 # 10) result.
Proof.
  intros Hrun m Hm.
  apply findSimilarCases_result in Hrun as (o & -> & -> & ->).
  rewrite (jsSort_perm similarityScore) in Hm.
  apply list_elem_of_omap in Hm as (entry & _ & Hc).
  by apply candidate_above in Hc.
Qed.

(** The theorem on a store with one case above and one below 0.7. *)
Lemma findSimilarCases_above_fixed_threshold_witness :
  let w := Sample.storeOf [(1, ["a"; "b"; "c"; "d"]); (2, ["x"])] in
  ∃ result : list Match,
    findSimilarCases Sample.features calculateSimilarity
      (Sample.incidentOf ["a"; "b"; "c"]) w = (inr result, w) ∧
    aboveThreshold (7 # 10) result.
Proof.
  intros w. eexists.
  split; [apply findSimilarCases_structured|].
  apply (findSimilarCases_above_fixed_threshold Sample.features calculateSimilarity
           (Sample.incidentOf ["a"; "b"; "c"]) w w).
  apply findSimilarCases_structured.
Defined.

(** C2 as stated fails for a threshold above 0.7: called with the
    threshold 0.9, the matcher returns a case whose score is 3/4. *)
Lemma findSimilarCases_ignores_threshold :
  ∃ result : list Match,
    (findSimilarCasesWith Sample.features calculateSimilarity
       (Sample.incidentOf ["a"; "b"; "c"]) (9 # 10)
       (Sample.storeOf [(1, ["a"; "b"; "c"; "d"])])).1 = inr result ∧
    ¬ aboveThreshold (9 # 10) result.
Proof.
  eexists. split; [vm_compute; reflexivity|].
  intros Hclaim.
  specialize (Hclaim _ (list_elem_of_here _ _)). simpl in Hclaim.
  revert Hclaim. by vm_compute.
Qed.

(** C8.  [findSimilarCases] fails with [InvalidIncidentError] exactly
    when its argument is missing or not a structured record, it fails
    with no other error, and for a structured incident on an empty
    store it returns the empty sequence. *)
Theorem findSimilarCases_fails_iff_unstructured
    (features : Incident → Fingerprint) (similarity : Fingerprint → Fingerprint → Q)
    (i : JsValue) (w : Companion) :
  ((findSimilarCases features similarity i w).1 = inl InvalidIncidentError
   ↔ isStructured i = false) ∧
  (∀ e, (findSimilarCases features similarity i w).1 = inl e
        → e = InvalidIncidentError) ∧
  (isStructured i = true → previousCases w = [] →
   (findSimilarCases features similarity i w).1 = inr []).
Proof.
  destruct i as [| | | | |o];
    try (rewrite findSimilarCases_unstructured by done; simpl;
         repeat split; (done || congruence)).
  rewrite findSimilarCases_structured; simpl. repeat split; try done.
  intros _ ->. done.
Qed.

(** The theorem on [undefined] and on an empty store. *)
Lemma findSimilarCases_fails_iff_unstructured_witness :
  ((findSimilarCases Sample.features calculateSimilarity VUndefined
      (newCompanion Sample.page)).1 = inl InvalidIncidentError
   ↔ isStructured VUndefined = false) ∧
  (isStructured (Sample.incidentOf ["1.2.3.4"]) = true →
   previousCases (newCompanion Sample.page) = [] →
   (findSimilarCases Sample.features calculateSimilarity
      (Sample.incidentOf ["1.2.3.4"]) (newCompanion Sample.page)).1 = inr []).
Proof.
  split.
  - apply (findSimilarCases_fails_iff_unstructured Sample.features calculateSimilarity
             VUndefined (newCompanion Sample.page)).
  - apply (findSimilarCases_fails_iff_unstructured Sample.features calculateSimilarity
             (Sample.incidentOf ["1.2.3.4"]) (newCompanion Sample.page)).
Defined.

(** C9.  A call of [findSimilarCases] leaves the companion as it was:
    [previousCases] and [learningPatterns] after the call are what they
    were before it, whether the call returns or throws. *)
Theorem findSimilarCases_leaves_store
    (features : Incident → Fingerprint) (similarity : Fingerprint → Fingerprint → Q)
    (i : JsValue) (w : Companion) :
  (findSimilarCases features similarity i w).2 = w ∧
  previousCases (findSimilarCases features similarity i w).2 = previousCases w ∧
  learningPatterns (findSimilarCases features similarity i w).2 = learningPatterns w.
Proof.
  destruct i as [| | | | |o];
    try (by rewrite findSimilarCases_unstructured).
  by rewrite findSimilarCases_structured.
Qed.

(** ** The similarity scorer *)

Lemma Zpos_of_nat (n : nat) : n ≠ 0%nat → Z.pos (Pos.of_nat n) = Z.of_nat n.
Proof. intros Hn. lia. Qed.

Lemma tokenSet_empty (a : Fingerprint) : tokenSet a = ∅ ↔ a = [].
Proof.
  unfold tokenSet. split; [|by intros ->].
  destruct a as [|t a]; [done|]. simpl. set_solver.
Qed.

Lemma calculateSimilarity_nonempty (a b : Fingerprint) :
  size (tokenSet a ∪ tokenSet b) ≠ 0%nat →
  calculateSimilarity a b
  = (Z.of_nat (size (tokenSet a ∩ tokenSet b))
     # Pos.of_nat (size (tokenSet a ∪ tokenSet b)))%Q.
Proof. intros Hu. unfold calculateSimilarity. by destruct (decide _). Qed.

Lemma calculateSimilarity_empty (a b : Fingerprint) :
  size (tokenSet a ∪ tokenSet b) = 0%nat → calculateSimilarity a b = 0%Q.
Proof. intros Hu. unfold calculateSimilarity. by destruct (decide _). Qed.

(** C3.  With [A] and [B] the feature-token sets of the two
    fingerprints: when the union is not empty the score is the size of
    the intersection divided by the size of the union; the score always
    lies between 0 and 1; and it is 0 when both sets are empty. *)
Theorem calculateSimilarity_is_jaccard (a b : Fingerprint) :
  (size (tokenSet a ∪ tokenSet b) ≠ 0%nat →
   (calculateSimilarity a b
    == inject_Z (Z.of_nat (size (tokenSet a ∩ tokenSet b)))
       / inject_Z (Z.of_nat (size (tokenSet a ∪ tokenSet b))))%Q) ∧
  (0 <= calculateSimilarity a b)%Q ∧
  (calculateSimilarity a b <= 1)%Q ∧
  (tokenSet a = ∅ → tokenSet b = ∅ → calculateSimilarity a b = 0%Q).
Proof.
  assert (size (tokenSet a ∩ tokenSet b) ≤ size (tokenSet a ∪ tokenSet b))%nat
    as Hle.
  { etransitivity; apply subseteq_size;
      [apply intersection_subseteq_l | apply union_subseteq_l]. }
  repeat split.
  - intros Hu. rewrite calculateSimilarity_nonempty by done.
    rewrite Qmake_Qdiv. by rewrite Zpos_of_nat.
  - destruct (decide (size (tokenSet a ∪ tokenSet b) = 0%nat)) as [Hu|Hu].
    + by rewrite calculateSimilarity_empty.
    + rewrite calculateSimilarity_nonempty by done.
      unfold Qle; simpl. lia.
  - destruct (decide (size (tokenSet a ∪ tokenSet b) = 0%nat)) as [Hu|Hu].
    + by rewrite calculateSimilarity_empty.
    + rewrite calculateSimilarity_nonempty by done.
      unfold Qle; simpl. rewrite Zpos_of_nat by done. lia.
  - intros Ha Hb. apply calculateSimilarity_empty.
    by rewrite Ha, Hb, union_empty_l_L, size_empty.
Qed.

(** The theorem on two fingerprints sharing two of four tokens, and on
    two empty ones. *)
Lemma calculateSimilarity_is_jaccard_witness :
  (calculateSimilarity ["ip"; "phishing"; "link"] ["ip"; "phishing"; "campaign"]
   == inject_Z 2 / inject_Z 4)%Q ∧
  calculateSimilarity [] [] = 0%Q.
Proof.
  split.
  - apply (calculateSimilarity_is_jaccard
             ["ip"; "phishing"; "link"] ["ip"; "phishing"; "campaign"]).
    by vm_compute.
  - by apply (calculateSimilarity_is_jaccard [] []).
Defined.

(** C4.  The scorer is symmetric, and the score of a fingerprint that
    is not empty against itself is 1. *)
Theorem calculateSimilarity_symmetric_reflexive :
  (∀ a b : Fingerprint, calculateSimilarity a b = calculateSimilarity b a) ∧
  (∀ a : Fingerprint, a ≠ [] → (calculateSimilarity a a == 1)%Q).
Proof.
  split.
  - intros a b. unfold calculateSimilarity.
    by rewrite (comm_L (∪) (tokenSet a)), (comm_L (∩) (tokenSet a)).
  - intros a Ha.
    assert (size (tokenSet a) ≠ 0%nat) as Hs.
    { intros Hz. apply size_empty_inv in Hz. apply leibniz_equiv in Hz.
      by apply tokenSet_empty in Hz. }
    pose proof (idemp_L (∪) (tokenSet a)) as Hunion.
    pose proof (idemp_L (∩) (tokenSet a)) as Hinter.
    rewrite calculateSimilarity_nonempty; rewrite Hunion; [|done].
    rewrite Hinter.
    unfold Qeq; simpl. rewrite Zpos_of_nat by done. lia.
Qed.

(** The theorem on concrete fingerprints. *)
Lemma calculateSimilarity_symmetric_reflexive_witness :
  calculateSimilarity ["ip"; "phishing"] ["phishing"; "hash"]
  = calculateSimilarity ["phishing"; "hash"] ["ip"; "phishing"] ∧
  (calculateSimilarity ["ip"; "phishing"] ["ip"; "phishing"] == 1)%Q.
Proof.
  split.
  - apply calculateSimilarity_symmetric_reflexive.
  - by apply calculateSimilarity_symmetric_reflexive.
Defined.

(** ** The case store *)

Section JsMapFacts.
Context {V : Type}.
Implicit Types (m : list (string * V)) (k : string) (v : V).

Lemma get_set_eq k v m : JsMap.get k (JsMap.set k v m) = Some v.
Proof.
  induction m as [|[k' v'] m IH]; simpl.
  - by rewrite decide_True.
  - destruct (decide (k' = k)) as [->|Hne]; simpl.
    + by rewrite decide_True.
    + by rewrite decide_False.
Qed.

Lemma get_set_ne k k' v m :
  k ≠ k' → JsMap.get k' (JsMap.set k v m) = JsMap.get k' m.
Proof.
  intros Hne. induction m as [|[k0 v0] m IH]; simpl.
  - by rewrite decide_False.
  - destruct (decide (k0 = k)) as [->|Hk0]; simpl.
    + by rewrite !decide_False.
    + by rewrite IH.
Qed.

Lemma get_None k m : JsMap.get k m = None ↔ k ∉ JsMap.keys m.
Proof.
  unfold JsMap.keys. induction m as [|[k' v'] m IH]; simpl.
  - split; [intros _; apply not_elem_of_nil|done].
  - rewrite not_elem_of_cons.
    destruct (decide (k' = k)) as [->|Hne].
    + split; [done|]. by intros [? _].
    + rewrite IH. split; [|by intros [_ ?]].
      intros Hk. split; [|done]. by intros ->.
Qed.

Lemma get_snoc k v m :
  k ∉ JsMap.keys m → JsMap.get k (m ++ [(k, v)]) = Some v.
Proof.
  unfold JsMap.keys. induction m as [|[k' v'] m IH]; simpl; intros Hk.
  - by rewrite decide_True.
  - apply not_elem_of_cons in Hk as [Hne Hk].
    rewrite decide_False by done. by apply IH.
Qed.

(** A new key goes to the end of the iteration order. *)
Lemma set_fresh k v m :
  k ∉ JsMap.keys m → JsMap.set k v m = m ++ [(k, v)].
Proof.
  unfold JsMap.keys. induction m as [|[k' v'] m IH]; simpl; intros Hk; [done|].
  apply not_elem_of_cons in Hk as [Hne Hk].
  rewrite decide_False by done. by rewrite IH.
Qed.

(** A key already present keeps the map at its size. *)
Lemma keys_set_present k v m :
  k ∈ JsMap.keys m → JsMap.keys (JsMap.set k v m) = JsMap.keys m.
Proof.
  unfold JsMap.keys. induction m as [|[k' v'] m IH]; simpl; intros Hk.
  - by apply elem_of_nil in Hk.
  - destruct (decide (k' = k)) as [->|Hne]; simpl; [done|].
    apply elem_of_cons in Hk as [?|Hk]; [congruence|].
    f_equal. by apply IH.
Qed.

Lemma keys_set_NoDup k v m :
  NoDup (JsMap.keys m) → NoDup (JsMap.keys (JsMap.set k v m)).
Proof.
  intros Hm. destruct (decide (k ∈ JsMap.keys m)) as [Hin|Hout].
  - by rewrite keys_set_present.
  - rewrite set_fresh by done. unfold JsMap.keys in *.
    rewrite fmap_app. apply NoDup_app. split; [done|].
    split; [|apply NoDup_singleton].
    intros x Hx Hx'. apply list_elem_of_singleton in Hx' as ->. done.
Qed.
End JsMapFacts.

Section PruneFacts.
Context {V : Type} (createdAt : V → Z).
Implicit Types (cases : list (string * V)).

Lemma prune_unbounded now cases : prune createdAt None None now cases = cases.
Proof. done. Qed.

Lemma prune_sublist maxSize maxAge now cases :
  prune createdAt maxSize maxAge now cases `sublist_of` cases.
Proof.
  unfold prune.
  assert (∀ l : list (string * V),
            match maxSize with
            | Some n => drop (length l - n) l
            | None => l
            end `sublist_of` l) as Hsize.
  { intros l. destruct maxSize; [apply sublist_drop|done]. }
  etransitivity; [apply Hsize|].
  destruct maxAge; [apply sublist_filter|done].
Qed.

Lemma prune_keys_NoDup maxSize maxAge now cases :
  NoDup (JsMap.keys cases) →
  NoDup (JsMap.keys (prune createdAt maxSize maxAge now cases)).
Proof.
  intros Hnd. eapply sublist_NoDup; [exact Hnd|].
  apply (fmap_sublist fst), prune_sublist.
Qed.

(** The newest entry stays when the size bound admits at least one
    record and the entry is within the age bound. *)
Lemma prune_keeps_newest maxSize maxAge now cases k v :
  maxSize ≠ Some 0%nat →
  (∀ age, maxAge = Some age → now - createdAt v ≤ age) →
  ∃ kept, prune createdAt maxSize maxAge now (cases ++ [(k, v)]) = kept ++ [(k, v)]
          ∧ kept `sublist_of` cases.
Proof.
  intros Hsize Hage. unfold prune.
  assert (∃ young, match maxAge with
                   | Some age => filter (λ kv, now - createdAt kv.2 ≤ age)
                                   (cases ++ [(k, v)])
                   | None => cases ++ [(k, v)]
                   end = young ++ [(k, v)] ∧ young `sublist_of` cases)
    as (young & -> & Hyoung).
  { destruct maxAge as [age|]; [|by exists cases].
    exists (filter (λ kv, now - createdAt kv.2 ≤ age) cases).
    split; [|apply sublist_filter].
    rewrite filter_app, filter_cons_True by (simpl; auto). done. }
  destruct maxSize as [n|]; [|by exists young].
  assert (n ≠ 0%nat) by congruence.
  exists (drop (length young + 1 - n) young). split.
  - rewrite length_app; simpl.
    rewrite drop_app_le by lia. done.
  - etransitivity; [apply sublist_drop|done].
Qed.
End PruneFacts.

Lemma StronglySorted_sublist {A} (R : A → A → Prop) (k l : list A) :
  k `sublist_of` l → StronglySorted R l → StronglySorted R k.
Proof.
  induction 1 as [|x k l Hkl IH|x k l Hkl IH]; intros Hl; [done|..].
  - apply StronglySorted_inv in Hl as [Hl Hx].
    constructor; [by apply IH|].
    rewrite Forall_forall in Hx |- *. intros y Hy.
    apply Hx. by eapply elem_of_sublist.
  - apply StronglySorted_inv in Hl as [Hl _]. by apply IH.
Qed.

(** Two calls get the same id exactly when [Date.now()] gave them the
    same reading. *)
Lemma caseIdOf_inj (t1 t2 : Z) : caseIdOf t1 = caseIdOf t2 → t1 = t2.
Proof.
  unfold caseIdOf. intros Heq. cbv [String.app] in Heq.
  injection Heq as Heq. by apply pretty_Z_inj in Heq.
Qed.

Section StoreFacts.
Variable features : Incident → Fingerprint.
Variable updatePatterns :
  JsValue → CompanionResponse → list (string * Z) → list (string * Z).
Variable maxSize : option nat.
Variable maxAge : option Z.

Lemma updateLearningDatabase_structured clock o r w :
  updateLearningDatabase features updatePatterns maxSize maxAge clock (VObject o) r w
  = (inr VUndefined,
     mkCompanion
       (prune timestamp maxSize maxAge (pruneTime clock)
          (JsMap.set (caseIdOf (dateNow clock))
             (mkCase (VObject o) r (newDate clock) (features o))
             (previousCases w)))
       (updatePatterns (VObject o) r (learningPatterns w))
       (currentContext w) (analysisHistory w) (dom w) (consoleErrors w)).
Proof. reflexivity. Qed.

Lemma updateLearningDatabase_unstructured clock v r w :
  isStructured v = false →
  updateLearningDatabase features updatePatterns maxSize maxAge clock v r w
  = (inl InvalidIncidentError, w).
Proof. by destruct v. Qed.

(** The keys of the store stay pairwise distinct. *)
Lemma updateLearningDatabase_keys_NoDup clock v r w :
  NoDup (JsMap.keys (previousCases w)) →
  NoDup (JsMap.keys (previousCases
    (updateLearningDatabase features updatePatterns maxSize maxAge clock v r w).2)).
Proof.
  intros Hnd. destruct v as [| | | | |o];
    try (by rewrite updateLearningDatabase_unstructured).
  rewrite updateLearningDatabase_structured; simpl.
  by apply prune_keys_NoDup, keys_set_NoDup.
Qed.

(** With a new id and a clock that does not run backwards the
    timestamps keep ascending. *)
Lemma updateLearningDatabase_timestamps clock o r w :
  timestampsAscend w →
  Forall (λ c, timestamp c ≤ newDate clock) (allCases w) →
  caseIdOf (dateNow clock) ∉ JsMap.keys (previousCases w) →
  timestampsAscend
    (updateLearningDatabase features updatePatterns maxSize maxAge clock
       (VObject o) r w).2.
Proof.
  intros Hasc Hle Hfresh. unfold timestampsAscend, allCases, JsMap.values in *.
  rewrite updateLearningDatabase_structured; simpl.
  rewrite set_fresh by done.
  apply StronglySorted_Sorted.
  eapply StronglySorted_sublist.
  { apply (fmap_sublist timestamp), (fmap_sublist snd), prune_sublist. }
  rewrite !fmap_app; simpl.
  apply StronglySorted_app_2.
  - intros t1 t2 Ht1 Ht2. apply list_elem_of_singleton in Ht2 as ->.
    apply list_elem_of_fmap in Ht1 as (c & -> & Hc).
    rewrite Forall_forall in Hle. by apply Hle.
  - apply Sorted_StronglySorted; [apply _|done].
  - repeat constructor.
Qed.
End StoreFacts.

(** C5, as the code has it.  For a structured incident
    [updateLearningDatabase] resolves with [undefined]; the case id
    [case_<Date.now()>] is not handed back.  The record it writes under
    that id carries the inserted incident and, as patterns, what
    [extractPatterns] gives for that incident; a lookup of the id right
    after the write returns this record, and so does a lookup after the
    call when pruning has no bound, or when the id was new, the size
    bound admits a record and the record is within the age bound. *)
Theorem updateLearningDatabase_then_get
    (features : Incident → Fingerprint)
    (updatePatterns : JsValue → CompanionResponse → list (string * Z) → list (string * Z))
    (maxSize : option nat) (maxAge : option Z)
    (clock : Clock) (o : Incident) (r : CompanionResponse) (w : Companion) :
  let caseId := caseIdOf (dateNow clock) in
  let record := mkCase (VObject o) r (newDate clock) (features o) in
  let written := JsMap.set caseId record (previousCases w) in
  let out := updateLearningDatabase features updatePatterns maxSize maxAge
               clock (VObject o) r w in
  out.1 = inr VUndefined ∧
  incident record = VObject o ∧
  extractPatterns features (VObject o) = inr (patterns record) ∧
  JsMap.get caseId written = Some record ∧
  previousCases out.2 = prune timestamp maxSize maxAge (pruneTime clock) written ∧
  (maxSize = None → maxAge = None →
   JsMap.get caseId (previousCases out.2) = Some record) ∧
  (caseId ∉ JsMap.keys (previousCases w) →
   maxSize ≠ Some 0%nat →
   (∀ age, maxAge = Some age → pruneTime clock - newDate clock ≤ age) →
   JsMap.get caseId (previousCases out.2) = Some record).
Proof.
  intros caseId record written out. subst out.
  rewrite updateLearningDatabase_structured; simpl.
  fold caseId. fold record. fold written.
  repeat split; try done.
  - apply get_set_eq.
  - intros -> ->. apply get_set_eq.
  - intros Hfresh Hsize Hage. subst written.
    rewrite set_fresh by done.
    destruct (prune_keeps_newest timestamp maxSize maxAge (pruneTime clock)
                (previousCases w) caseId record Hsize Hage) as (kept & -> & Hkept).
    apply get_snoc. intros Hin. apply Hfresh.
    eapply elem_of_sublist; [exact Hin|]. by apply (fmap_sublist fst).
Qed.

(** The theorem on a store of two cases bounded to two records and one
    day: the new record is found after the call. *)
Lemma updateLearningDatabase_then_get_witness :
  let clock := mkClock 1700000000000 1700000000001 1700000000002 in
  let i := mkIncident (Some "phishing campaign detected") (Some ["1.2.3.4"]) None None in
  let w := Sample.storeOf [(1, ["a"]); (2, ["b"])] in
  let out := updateLearningDatabase Sample.features Sample.updatePatterns
               (Some 2%nat) (Some 86400000) clock (VObject i) Sample.outcome w in
  out.1 = inr VUndefined ∧
  JsMap.get "case_1700000000000" (previousCases out.2)
  = Some (mkCase (VObject i) Sample.outcome 1700000000001 ["1.2.3.4"]).
Proof.
  intros clock i w out.
  pose proof (updateLearningDatabase_then_get Sample.features Sample.updatePatterns
                (Some 2%nat) (Some 86400000) clock i Sample.outcome w)
    as (Hret & _ & _ & _ & _ & _ & Hget).
  split; [exact Hret|].
  apply Hget.
  - vm_compute. intros Hin. by repeat (apply elem_of_cons in Hin as [?|Hin]; [done|]);
      apply elem_of_nil in Hin.
  - done.
  - intros age [= <-]. vm_compute. done.
Defined.

(** C5 as stated fails on the return value: the call resolves with
    [undefined], not with the id under which the case was stored. *)
Lemma updateLearningDatabase_returns_undefined :
  (updateLearningDatabase Sample.features Sample.updatePatterns None None
     (mkClock 1000 1000 1000) (Sample.incidentOf ["1.2.3.4"]) Sample.outcome
     (newCompanion Sample.page)).1
  ≠ inr (VString (caseIdOf 1000)).
Proof. vm_compute. discriminate. Qed.

(** C6, on the code.  Two calls of [updateLearningDatabase] within one
    millisecond: the second call is given the id [case_1000], which the
    store already holds, and its record replaces that of the first
    call, so the store ends with one case instead of two.  (The store
    holds no id twice, before or after.) *)
Theorem updateLearningDatabase_reuses_id :
  let clock := mkClock 1000 1000 1000 in
  let insert := updateLearningDatabase Sample.features Sample.updatePatterns
                  None None clock in
  let w1 := (insert (Sample.incidentOf ["1.2.3.4"]) Sample.outcome
               (newCompanion Sample.page)).2 in
  let w2 := (insert (Sample.incidentOf ["evil.example"]) Sample.outcome w1).2 in
  JsMap.keys (previousCases w1) = ["case_1000"] ∧
  caseIdOf (dateNow clock) ∈ JsMap.keys (previousCases w1) ∧
  previousCases w2
  = [("case_1000", mkCase (Sample.incidentOf ["evil.example"]) Sample.outcome
                     1000 ["evil.example"])] ∧
  NoDup (JsMap.keys (previousCases w2)).
Proof.
  vm_compute. repeat split.
  - apply list_elem_of_here.
  - apply NoDup_singleton.
Qed.

(** C7.  Pruning to [N] with no age bound, on a store of more than [N]
    cases, leaves exactly [N] records, and they are the last [N] of the
    insertion order.  Every call of [updateLearningDatabase] that
    stores a case ends with this pruning: the store it leaves is the
    pruned store with the new record written. *)
Theorem pruneOldData_keeps_most_recent (N : nat) (now : Z) (w : Companion) :
  (N < length (allCases w))%nat →
  let w' := (pruneOldData (Some N) None now w).2 in
  length (allCases w') = N ∧
  allCases w' = drop (length (allCases w) - N) (allCases w) ∧
  (∃ evicted, allCases w = evicted ++ allCases w') ∧
  (∀ features updatePatterns maxSize maxAge clock o r w0,
     previousCases
       (updateLearningDatabase features updatePatterns maxSize maxAge clock
          (VObject o) r w0).2
     = previousCases
         (pruneOldData maxSize maxAge (pruneTime clock)
            (setPreviousCases
               (JsMap.set (caseIdOf (dateNow clock))
                  (mkCase (VObject o) r (newDate clock) (features o))
                  (previousCases w0)) w0)).2).
Proof.
  intros HN w'. subst w'. unfold allCases, JsMap.values in *.
  rewrite length_fmap in HN. simpl. unfold prune.
  rewrite <- fmap_drop, !length_fmap.
  repeat split.
  - rewrite length_drop. lia.
  - exists (take (length (previousCases w) - N) (previousCases w)).*2.
    by rewrite <- fmap_app, take_drop.
Qed.

(** The theorem on a store of three cases pruned to two. *)
Lemma pruneOldData_keeps_most_recent_witness :
  let w := Sample.storeOf [(1, ["a"]); (2, ["b"]); (3, ["c"])] in
  (2 < length (allCases w))%nat ∧
  timestamp <$> allCases (pruneOldData (Some 2%nat) None 10 w).2 = [2; 3].
Proof.
  intros w. split; [vm_compute; lia|].
  destruct (pruneOldData_keeps_most_recent 2 10 w) as (_ & -> & _).
  - vm_compute. lia.
  - reflexivity.
Defined.

(** ** The orchestration *)

Section AnalysisFacts.
Variable features : Incident → Fingerprint.
Variable similarity : Fingerprint → Fingerprint → Q.
Variable updatePatterns :
  JsValue → CompanionResponse → list (string * Z) → list (string * Z).
Variable maxSize : option nat.
Variable maxAge : option Z.
Variable services : Services.
Variable calculateConfidence : option Analysis → JsError + Q.
Variable showError : string → M unit.

#[local] Abbreviation steps :=
  (analysisSteps features similarity updatePatterns maxSize maxAge
     services calculateConfidence).
#[local] Abbreviation analyze :=
  (analyzeIncidentWithContext features similarity updatePatterns
     maxSize maxAge services calculateConfidence showError).

Lemma showThinkingState_present msg w classes :
  toadIcon (dom w) = Some classes →
  showThinkingState msg w
  = (inr tt, setDom (mkDom (Some (classListAdd "thinking" classes))
                       (bodyChildren (dom w) ++ [mkElement "thinking-bubble" msg])) w).
Proof. intros Hicon. unfold showThinkingState. by rewrite Hicon. Qed.

Lemma showThinkingState_absent msg w :
  toadIcon (dom w) = None →
  showThinkingState msg w
  = (inl (TypeError "Cannot read properties of null (reading 'classList')"), w).
Proof. intros Hicon. unfold showThinkingState. by rewrite Hicon. Qed.

(** Without the icon the method rejects before its [try] is entered. *)
Lemma analyze_without_icon clock i w :
  toadIcon (dom w) = None →
  analyze clock i w
  = (inl (TypeError "Cannot read properties of null (reading 'classList')"), w).
Proof.
  intros Hicon. unfold analyzeIncidentWithContext, bind.
  by rewrite showThinkingState_absent.
Qed.

Lemma analyze_steps_returned clock i w w0 r w1 :
  showThinkingState "Hmm, let me take a look at this incident..." w = (inr tt, w0) →
  steps clock i w0 = (inr r, w1) →
  analyze clock i w = (inr (Some r), w1).
Proof.
  intros Hshow Hsteps.
  unfold analyzeIncidentWithContext, bind at 1. rewrite Hshow.
  unfold tryCatch, bind. by rewrite Hsteps.
Qed.

Lemma analyze_steps_threw clock i w w0 e w1 :
  showThinkingState "Hmm, let me take a look at this incident..." w = (inr tt, w0) →
  steps clock i w0 = (inl e, w1) →
  analyze clock i w = analysisFailed showError e w1.
Proof.
  intros Hshow Hsteps.
  unfold analyzeIncidentWithContext, bind at 1. rewrite Hshow.
  unfold tryCatch, bind. by rewrite Hsteps.
Qed.

Lemma analysisFailed_shown e w1 msg :
  msg = "Oops! I ran into a problem while analyzing this incident. Let me try a different approach..." →
  (showError msg (logError "Analysis failed:" e w1)).1 = inr tt →
  analysisFailed showError e w1
  = (inr None, (showError msg (logError "Analysis failed:" e w1)).2).
Proof.
  intros -> Hok. unfold analysisFailed, bind, modify, ret.
  destruct (showError _ _) as [[err|[]] w2]; simpl in *; congruence.
Qed.
End AnalysisFacts.

(** C10, as the code has it.  [showThinkingState] runs before the [try]
    block, so the guarantee starts once it has returned, which needs a
    [.toad-icon] element on the page.  From there on, and as long as
    [showError] itself does not throw, [analyzeIncidentWithContext]
    propagates no exception: if a step of the analysis throws, the
    error is logged, the error message is shown and the method returns
    [undefined]; if no step throws it returns the response. *)
Theorem analyzeIncidentWithContext_catches
    (features : Incident → Fingerprint) (similarity : Fingerprint → Fingerprint → Q)
    (updatePatterns : JsValue → CompanionResponse → list (string * Z) → list (string * Z))
    (maxSize : option nat) (maxAge : option Z) (services : Services)
    (calculateConfidence : option Analysis → JsError + Q)
    (showError : string → M unit)
    (clock : Clock) (i : JsValue) (w : Companion) (classes : list string) :
  toadIcon (dom w) = Some classes →
  (∀ msg c, (showError msg c).1 = inr tt) →
  ∃ result w',
    analyzeIncidentWithContext features similarity updatePatterns maxSize maxAge
      services calculateConfidence showError clock i w = (inr result, w') ∧
    match analysisSteps features similarity updatePatterns maxSize maxAge
            services calculateConfidence clock i
            (showThinkingState "Hmm, let me take a look at this incident..." w).2 with
    | (inl e, w1) =>
        result = None ∧
        w' = (showError
                "Oops! I ran into a problem while analyzing this incident. Let me try a different approach..."
                (logError "Analysis failed:" e w1)).2
    | (inr r, w1) => result = Some r ∧ w' = w1
    end.
Proof.
  intros Hicon Hshow.
  pose proof (showThinkingState_present
                "Hmm, let me take a look at this incident..." w classes Hicon) as Hthink.
  rewrite Hthink; simpl.
  destruct (analysisSteps _ _ _ _ _ _ _ clock i _) as [[e|r] w1] eqn:Hsteps.
  - eexists None, _. split; [|done].
    erewrite analyze_steps_threw; [|exact Hthink|exact Hsteps].
    by apply analysisFailed_shown.
  - eexists (Some r), w1. split; [|done].
    by eapply analyze_steps_returned.
Qed.

(** The theorem on a page with the icon and a rejecting indicator
    lookup: the method returns [undefined] after logging and showing
    the error. *)
Lemma analyzeIncidentWithContext_catches_witness :
  let clock := mkClock 1000 1000 1000 in
  let w := newCompanion Sample.page in
  toadIcon (dom w) = Some ["toad-icon"] ∧
  (∀ msg c, (Sample.showError msg c).1 = inr tt) ∧
  ∃ w',
    analyzeIncidentWithContext Sample.features calculateSimilarity
      Sample.updatePatterns None None Sample.failing Sample.calculateConfidence
      Sample.showError clock (Sample.incidentOf ["1.2.3.4"]) w = (inr None, w') ∧
    consoleErrors w' = [("Analysis failed:", ServiceError "quota exceeded")] ∧
    className <$> bodyChildren (dom w') = ["thinking-bubble"; "notification"].
Proof.
  intros clock w.
  split; [reflexivity|]. split; [reflexivity|].
  destruct (analyzeIncidentWithContext_catches Sample.features calculateSimilarity
              Sample.updatePatterns None None Sample.failing Sample.calculateConfidence
              Sample.showError clock (Sample.incidentOf ["1.2.3.4"]) w ["toad-icon"]
              eq_refl (λ _ _, eq_refl)) as (result & w' & Hrun & Hcase).
  vm_compute in Hcase. destruct Hcase as [-> ->].
  eexists. split; [exact Hrun|]. split; reflexivity.
Defined.

(** C10 as stated fails on a page without a [.toad-icon] element: the
    [TypeError] of [showThinkingState] is thrown outside the [try] and
    reaches the caller. *)
Lemma analyzeIncidentWithContext_rejects :
  (analyzeIncidentWithContext Sample.features calculateSimilarity
     Sample.updatePatterns None None Sample.services Sample.calculateConfidence
     Sample.showError (mkClock 1000 1000 1000) (Sample.incidentOf ["1.2.3.4"])
     (newCompanion Sample.bare)).1
  = inl (TypeError "Cannot read properties of null (reading 'classList')").
Proof. reflexivity. Qed.

(** ** Runs of the model *)

(** A successful analysis on an empty store: the response is returned
    and the case is stored under the id of the clock reading. *)
Example analyzeIncidentWithContext_success :
  let out := analyzeIncidentWithContext Sample.features calculateSimilarity
               Sample.updatePatterns None None Sample.services
               Sample.calculateConfidence Sample.showError
               (mkClock 1000 1001 1002) (Sample.incidentOf ["1.2.3.4"])
               (newCompanion Sample.page) in
  out.1
  = inr (Some (mkResponse
                 "🐸 Ah, I've seen something like this before! Credential phishing."
                 [] [] [])) ∧
  JsMap.keys (previousCases out.2) = ["case_1000"] ∧
  timestamp <$> allCases out.2 = [1001] ∧
  consoleErrors out.2 = [].
Proof. vm_compute. done. Qed.

(** An [undefined] incident: reading [incident.indicators] throws
    inside the [try], the error is caught and nothing is stored. *)
Example analyzeIncidentWithContext_undefined_incident :
  let out := analyzeIncidentWithContext Sample.features calculateSimilarity
               Sample.updatePatterns None None Sample.services
               Sample.calculateConfidence Sample.showError
               (mkClock 1000 1001 1002) VUndefined (newCompanion Sample.page) in
  out.1 = inr None ∧ previousCases out.2 = [] ∧
  consoleErrors out.2
  = [("Analysis failed:",
      TypeError "Cannot read properties of undefined (reading 'indicators')")].
Proof. vm_compute. done. Qed.

(** A stored case with the tokens of the incident is found again with
    score 1; one that shares a single token of three is not. *)
Example findSimilarCases_finds_same_indicators :
  (findSimilarCases Sample.features calculateSimilarity
     (Sample.incidentOf ["1.2.3.4"; "evil.example"])
     (Sample.storeOf [(1, ["1.2.3.4"; "evil.example"]);
                      (2, ["1.2.3.4"; "other.example"])])).1
  = inr [mkMatch (mkCase (Sample.incidentOf ["1.2.3.4"; "evil.example"])
                    Sample.outcome 1 ["1.2.3.4"; "evil.example"]) (2 # 2)].
Proof. vm_compute. done. Qed.

(** * Further properties of the code *)

(** ** What the matcher returns *)

Section MatcherMore.
Variable features : Incident → Fingerprint.
Variable similarity : Fingerprint → Fingerprint → Q.

Lemma candidate_Some patterns0 entry m :
  candidate similarity patterns0 entry = Some m
  ↔ (7 # 10 < similarity patterns0 (patterns entry.2))%Q
    ∧ m = mkMatch entry.2 (similarity patterns0 (patterns entry.2)).
Proof.
  unfold candidate. rewrite Qlt_alt.
  destruct (7 # 10 ?= _)%Q; split; try (intros [= <-]; done);
    intros [? ->]; congruence.
Qed.

Lemma candidates_length patterns0 (cases : list (string * CaseRecord)) :
  length (omap (candidate similarity patterns0) cases)
  = length (filter (λ c, (7 # 10 < similarity patterns0 (patterns c))%Q)
              (JsMap.values cases)).
Proof.
  unfold JsMap.values. induction cases as [|entry cases IH]; [done|].
  rewrite fmap_cons, filter_cons.
  change (omap (candidate similarity patterns0) (entry :: cases))
    with (match candidate similarity patterns0 entry with
          | Some m => m :: omap (candidate similarity patterns0) cases
          | None => omap (candidate similarity patterns0) cases
          end).
  destruct (candidate similarity patterns0 entry) as [m|] eqn:Hc.
  - apply candidate_Some in Hc as [Hs _].
    rewrite decide_True by done. simpl. f_equal. exact IH.
  - rewrite decide_False; [exact IH|].
    intros Hs.
    pose proof (proj2 (candidate_Some patterns0 entry _) (conj Hs eq_refl)) as Hm.
    congruence.
Qed.

Lemma findSimilarCases_elem o w m :
  m ∈ jsSort byScoreDescending
        (omap (candidate similarity (features o)) (previousCases w))
  ↔ ∃ c, c ∈ allCases w
         ∧ (7 # 10 < similarity (features o) (patterns c))%Q
         ∧ m = mkMatch c (similarity (features o) (patterns c)).
Proof.
  rewrite (jsSort_perm similarityScore), list_elem_of_omap.
  unfold allCases, JsMap.values. split.
  - intros ([k c] & Hin & Hc). apply candidate_Some in Hc as [Hs ->].
    exists c. split; [|done]. apply list_elem_of_fmap. by exists (k, c).
  - intros (c & Hin & Hs & ->).
    apply list_elem_of_fmap in Hin as ([k c'] & -> & Hin).
    exists (k, c'). split; [done|]. by apply candidate_Some.
Qed.
End MatcherMore.

(** X1.  For a structured incident [findSimilarCases] returns exactly
    the stored cases whose score against the incident is above 7/10:
    each result is a stored case together with its score, every stored
    case scoring above 7/10 is among the results, and there are as many
    results as such cases. *)
Theorem findSimilarCases_exactly_qualifying
    (features : Incident → Fingerprint) (similarity : Fingerprint → Fingerprint → Q)
    (o : Incident) (w : Companion) :
  ∃ result,
    findSimilarCases features similarity (VObject o) w = (inr result, w) ∧
    (∀ m, m ∈ result
          ↔ ∃ c, c ∈ allCases w
                 ∧ (7 # 10 < similarity (features o) (patterns c))%Q
                 ∧ m = mkMatch c (similarity (features o) (patterns c))) ∧
    length result
    = length (filter (λ c, (7 # 10 < similarity (features o) (patterns c))%Q)
                (allCases w)).
Proof.
  eexists. split; [apply findSimilarCases_structured|]. split.
  - intros m. apply findSimilarCases_elem.
  - rewrite (Permutation_length (jsSort_perm similarityScore _)).
    apply candidates_length.
Qed.

(** ** What an insertion does to the store *)

Section JsMapMore.
Context {V : Type}.
Implicit Types (m : list (string * V)) (k : string) (v : V).

Lemma get_Some_elem k v m : JsMap.get k m = Some v → (k, v) ∈ m.
Proof.
  induction m as [|[k' v'] m IH]; simpl; [done|].
  destruct (decide (k' = k)) as [->|Hne].
  - intros [= ->]. apply list_elem_of_here.
  - intros Hget. apply list_elem_of_further. by apply IH.
Qed.

Lemma set_elem k v m x : x ∈ JsMap.set k v m → x = (k, v) ∨ x ∈ m.
Proof.
  induction m as [|[k' v'] m IH]; simpl.
  - intros Hx. apply list_elem_of_singleton in Hx. by left.
  - destruct (decide (k' = k)) as [->|Hne]; intros Hx.
    + apply elem_of_cons in Hx as [->|Hx]; [by left|].
      right. by apply list_elem_of_further.
    + apply elem_of_cons in Hx as [->|Hx]; [right; apply list_elem_of_here|].
      destruct (IH Hx) as [->|Hin]; [by left|].
      right. by apply list_elem_of_further.
Qed.

Lemma length_set k v m :
  length (JsMap.set k v m)
  = if decide (k ∈ JsMap.keys m) then length m else S (length m).
Proof.
  destruct (decide (k ∈ JsMap.keys m)) as [Hin|Hout].
  - rewrite <- (length_fmap fst (JsMap.set k v m)), <- (length_fmap fst m).
    f_equal. by apply keys_set_present.
  - rewrite set_fresh by done. rewrite length_app. simpl. lia.
Qed.
End JsMapMore.

(** X2.  Insert, then find.  When the scorer rates the fingerprint of
    an incident against itself above 7/10 and no pruning bound is set,
    the case just stored by [updateLearningDatabase] is among the
    results of [findSimilarCases] for the same incident. *)
Theorem updateLearningDatabase_then_findSimilarCases
    (features : Incident → Fingerprint) (similarity : Fingerprint → Fingerprint → Q)
    (updatePatterns : JsValue → CompanionResponse → list (string * Z) → list (string * Z))
    (clock : Clock) (o : Incident) (r : CompanionResponse) (w : Companion) :
  (7 # 10 < similarity (features o) (features o))%Q →
  let w1 := (updateLearningDatabase features updatePatterns None None clock
               (VObject o) r w).2 in
  ∃ result,
    findSimilarCases features similarity (VObject o) w1 = (inr result, w1) ∧
    mkMatch (mkCase (VObject o) r (newDate clock) (features o))
      (similarity (features o) (features o)) ∈ result.
Proof.
  intros Hself w1. eexists. split; [apply findSimilarCases_structured|].
  apply findSimilarCases_elem.
  exists (mkCase (VObject o) r (newDate clock) (features o)).
  split; [|by split].
  subst w1. rewrite updateLearningDatabase_structured.
  unfold allCases, JsMap.values; simpl.
  apply list_elem_of_fmap.
  exists (caseIdOf (dateNow clock), mkCase (VObject o) r (newDate clock) (features o)).
  split; [done|]. apply get_Some_elem, get_set_eq.
Qed.

(** The theorem with the Jaccard scorer on an incident with one
    indicator. *)
Lemma updateLearningDatabase_then_findSimilarCases_witness :
  let o := mkIncident (Some "phishing campaign detected") (Some ["1.2.3.4"]) None None in
  let w1 := (updateLearningDatabase Sample.features Sample.updatePatterns None None
               (mkClock 5 6 7) (VObject o) Sample.outcome
               (Sample.storeOf [(1, ["a"])])).2 in
  (7 # 10 < calculateSimilarity (Sample.features o) (Sample.features o))%Q ∧
  ∃ result,
    findSimilarCases Sample.features calculateSimilarity (VObject o) w1
    = (inr result, w1) ∧
    mkMatch (mkCase (VObject o) Sample.outcome 6 ["1.2.3.4"])
      (calculateSimilarity ["1.2.3.4"] ["1.2.3.4"]) ∈ result.
Proof.
  intros o w1. split; [by vm_compute|].
  apply (updateLearningDatabase_then_findSimilarCases Sample.features
           calculateSimilarity Sample.updatePatterns (mkClock 5 6 7) o
           Sample.outcome (Sample.storeOf [(1, ["a"])])).
  by vm_compute.
Defined.


(** X4.  With no pruning bound, an insertion leaves every other id as
    it was, and the number of stored cases grows by one when the id is
    new and stays when the id is taken. *)
Theorem updateLearningDatabase_other_ids
    (features : Incident → Fingerprint)
    (updatePatterns : JsValue → CompanionResponse → list (string * Z) → list (string * Z))
    (clock : Clock) (o : Incident) (r : CompanionResponse) (w : Companion) :
  let w1 := (updateLearningDatabase features updatePatterns None None clock
               (VObject o) r w).2 in
  (∀ k, k ≠ caseIdOf (dateNow clock) →
        JsMap.get k (previousCases w1) = JsMap.get k (previousCases w)) ∧
  length (previousCases w1)
  = (if decide (caseIdOf (dateNow clock) ∈ JsMap.keys (previousCases w))
     then length (previousCases w) else S (length (previousCases w))).
Proof.
  rewrite updateLearningDatabase_structured; simpl. split.
  - intros k Hk. by apply get_set_ne.
  - apply length_set.
Qed.

Section InsertAllFacts.
Variable features : Incident → Fingerprint.
Variable updatePatterns :
  JsValue → CompanionResponse → list (string * Z) → list (string * Z).
Variable maxSize : option nat.
Variable maxAge : option Z.

Lemma insertAll_snoc calls call w :
  insertAll features updatePatterns maxSize maxAge (calls ++ [call]) w
  = (updateLearningDatabase features updatePatterns maxSize maxAge
       (callClock call) (callIncident call) (callResponse call)
       (insertAll features updatePatterns maxSize maxAge calls w)).2.
Proof. unfold insertAll. by rewrite foldl_snoc. Qed.
End InsertAllFacts.

(** X5.  The store after any run of [updateLearningDatabase] calls on a
    new companion, whatever the clock readings and the pruning bounds:
    no id occurs twice; every stored record is the record one of the
    calls built, kept under that call's id, with a structured incident
    and the patterns extracted from that incident; there are no more
    records than calls with a structured incident; and the page and the
    console are untouched. *)
Theorem insertAll_store_invariant
    (features : Incident → Fingerprint)
    (updatePatterns : JsValue → CompanionResponse → list (string * Z) → list (string * Z))
    (maxSize : option nat) (maxAge : option Z)
    (calls : list InsertCall) (page : Dom) :
  let w' := insertAll features updatePatterns maxSize maxAge calls (newCompanion page) in
  NoDup (JsMap.keys (previousCases w')) ∧
  Forall (λ kc, ∃ call o,
            call ∈ calls ∧ callIncident call = VObject o ∧
            kc = (caseIdOf (dateNow (callClock call)),
                  mkCase (VObject o) (callResponse call)
                    (newDate (callClock call)) (features o)))
    (previousCases w') ∧
  (length (previousCases w')
   ≤ length (filter (λ call, isStructured (callIncident call) = true) calls))%nat ∧
  dom w' = page ∧ consoleErrors w' = [].
Proof.
  induction calls as [|call calls IH] using rev_ind; simpl.
  { repeat split; try done; constructor. }
  destruct IH as (Hnd & Hall & Hlen & Hdom & Hcon).
  rewrite insertAll_snoc, filter_app, length_app.
  set (w0 := insertAll features updatePatterns maxSize maxAge calls (newCompanion page)) in *.
  assert (Forall (λ kc, ∃ call0 o,
            call0 ∈ calls ++ [call] ∧ callIncident call0 = VObject o ∧
            kc = (caseIdOf (dateNow (callClock call0)),
                  mkCase (VObject o) (callResponse call0)
                    (newDate (callClock call0)) (features o)))
            (previousCases w0)) as Hall'.
  { eapply Forall_impl; [exact Hall|].
    intros kc (call0 & o & Hin & Hi & ->). exists call0, o.
    split; [|done]. apply elem_of_app. by left. }
  destruct (callIncident call) as [| | | | |o] eqn:Hinc;
    try (rewrite updateLearningDatabase_unstructured by done; simpl;
         repeat split; [done|done|lia|done|done]).
  rewrite updateLearningDatabase_structured; simpl.
  repeat split; try done.
  - by apply prune_keys_NoDup, keys_set_NoDup.
  - apply Forall_forall. intros kc Hkc.
    eapply elem_of_sublist in Hkc; [|apply prune_sublist].
    apply set_elem in Hkc as [->|Hkc].
    + exists call, o. split; [|done].
      apply elem_of_app. right. apply list_elem_of_here.
    + rewrite Forall_forall in Hall'. by apply Hall'.
  - rewrite filter_cons_True by (by rewrite Hinc). simpl.
    etransitivity; [apply sublist_length, prune_sublist|].
    rewrite length_set. destruct (decide _); lia.
Qed.

(** ** Formatting the response *)

Lemma formatCompanionResponse_Some a similarCases confidence ev sg :
  evidence a = Some ev → recommendations a = Some sg →
  ∃ msg,
    formatCompanionResponse (Some a) similarCases confidence
    = inr (mkResponse msg
             ((λ e, mkEvidenceLine (ev_source e) (ev_description e) (ev_reference e)) <$> ev)
             ((λ r, mkSuggestion (rec_priority r) (rec_description r) (rec_explanation r)) <$> sg)
             ((λ c, mkRelatedCase None (similarityScore c) None) <$> similarCases)).
Proof.
  intros Hev Hsg. unfold formatCompanionResponse, mapProperty.
  rewrite Hev, Hsg.
  destruct similarCases as [|c cs]; simpl; eauto.
Qed.

Lemma formatCompanionResponse_inr analysis similarCases confidence r :
  formatCompanionResponse analysis similarCases confidence = inr r →
  ∃ a ev sg msg,
    analysis = Some a ∧ evidence a = Some ev ∧ recommendations a = Some sg ∧
    r = mkResponse msg
          ((λ e, mkEvidenceLine (ev_source e) (ev_description e) (ev_reference e)) <$> ev)
          ((λ r, mkSuggestion (rec_priority r) (rec_description r) (rec_explanation r)) <$> sg)
          ((λ c, mkRelatedCase None (similarityScore c) None) <$> similarCases).
Proof.
  intros Hf. destruct analysis as [a|]; [|done].
  destruct (evidence a) as [ev|] eqn:Hev; cycle 1.
  { unfold formatCompanionResponse, mapProperty in Hf. by rewrite Hev in Hf. }
  destruct (recommendations a) as [sg|] eqn:Hsg; cycle 1.
  { unfold formatCompanionResponse, mapProperty in Hf. rewrite Hev, Hsg in Hf.
    by destruct similarCases. }
  destruct (formatCompanionResponse_Some a similarCases confidence ev sg Hev Hsg)
    as [msg Hr].
  rewrite Hr in Hf. injection Hf as <-. by exists a, ev, sg, msg.
Qed.


(** X7.  A response of [formatCompanionResponse] has one evidence line
    per evidence of the analysis, one suggestion per recommendation and
    one related case per similar case, each in the order given; a
    related case carries the score of its similar case and neither a
    date nor a summary; and the related-cases list is empty exactly
    when no similar case was passed. *)
Theorem formatCompanionResponse_shape
    (analysis : option Analysis) (similarCases : list Match) (confidence : Q)
    (r : CompanionResponse) :
  formatCompanionResponse analysis similarCases confidence = inr r →
  ∃ a ev sg,
    analysis = Some a ∧ evidence a = Some ev ∧ recommendations a = Some sg ∧
    el_source <$> responseEvidence r = ev_source <$> ev ∧
    el_finding <$> responseEvidence r = ev_description <$> ev ∧
    el_link <$> responseEvidence r = ev_reference <$> ev ∧
    sg_action <$> suggestions r = rec_description <$> sg ∧
    sg_priority <$> suggestions r = rec_priority <$> sg ∧
    rc_similarity <$> relatedCases r = similarityScore <$> similarCases ∧
    Forall (λ c, rc_date c = None ∧ rc_summary c = None) (relatedCases r) ∧
    (relatedCases r = [] ↔ similarCases = []).
Proof.
  intros Hf.
  apply formatCompanionResponse_inr in Hf as (a & ev & sg & msg & -> & Hev & Hsg & ->).
  exists a, ev, sg. simpl.
  rewrite <- !list_fmap_compose.
  repeat split; try done.
  - apply Forall_fmap, Forall_true. done.
  - intros Hnil. by apply fmap_nil_inv in Hnil.
  - by intros ->.
Qed.

(** The theorem on an analysis with one evidence and no similar case. *)
Lemma formatCompanionResponse_shape_witness :
  let a := mkAnalysis "Credential phishing."
             (Some [mkEvidence "VirusTotal" "flagged by 12 engines" "https://vt.example/x"])
             (Some []) in
  ∃ r, formatCompanionResponse (Some a) [] (9 # 10) = inr r ∧
       el_finding <$> responseEvidence r = ["flagged by 12 engines"] ∧
       relatedCases r = [].
Proof.
  intros a. eexists. split; [reflexivity|].
  destruct (formatCompanionResponse_shape (Some a) [] (9 # 10) _ eq_refl)
    as (a' & ev & sg & [= <-] & [= <-] & _ & _ & Hfind & _ & _ & _ & _ & _ & Hnil).
  split; [exact Hfind|]. by apply Hnil.
Defined.

(** ** The steps of an analysis *)

Section StepsFacts.
Variable features : Incident → Fingerprint.
Variable similarity : Fingerprint → Fingerprint → Q.
Variable updatePatterns :
  JsValue → CompanionResponse → list (string * Z) → list (string * Z).
Variable maxSize : option nat.
Variable maxAge : option Z.
Variable services : Services.
Variable calculateConfidence : option Analysis → JsError + Q.

#[local] Abbreviation steps :=
  (analysisSteps features similarity updatePatterns maxSize maxAge
     services calculateConfidence).


(** On anything else the block throws and has changed nothing. *)
Lemma analysisSteps_unstructured clock i w :
  isStructured i = false → ∃ e, steps clock i w = (inl e, w).
Proof.
  intros Hi. destruct i as [| | | | |o]; try done;
    unfold analysisSteps, bind, lift; simpl; eauto;
    destruct (promiseAll3 _ _ _) as [e|[[vt mitre] intel]]; simpl; eauto.
Qed.


End StepsFacts.

Section AnalysisMore.
Variable features : Incident → Fingerprint.
Variable similarity : Fingerprint → Fingerprint → Q.
Variable updatePatterns :
  JsValue → CompanionResponse → list (string * Z) → list (string * Z).
Variable maxSize : option nat.
Variable maxAge : option Z.
Variable services : Services.
Variable calculateConfidence : option Analysis → JsError + Q.
Variable showError : string → M unit.

End AnalysisMore.







(** X11.  An incident that is missing or not a structured record never
    gets a response and never reaches the store: on a page with the
    icon, and with a [showError] that does not throw,
    [analyzeIncidentWithContext] returns [undefined], and when the
    error was caught the companion differed from the one before the
    call by the thinking bubble only. *)
Theorem analyzeIncidentWithContext_unstructured
    (features : Incident → Fingerprint) (similarity : Fingerprint → Fingerprint → Q)
    (updatePatterns : JsValue → CompanionResponse → list (string * Z) → list (string * Z))
    (maxSize : option nat) (maxAge : option Z) (services : Services)
    (calculateConfidence : option Analysis → JsError + Q)
    (showError : string → M unit)
    (clock : Clock) (i : JsValue) (w : Companion) (classes : list string) :
  isStructured i = false →
  toadIcon (dom w) = Some classes →
  (∀ msg c, (showError msg c).1 = inr tt) →
  ∃ e,
    analyzeIncidentWithContext features similarity updatePatterns maxSize maxAge
      services calculateConfidence showError clock i w
    = (inr None,
       (showError
          "Oops! I ran into a problem while analyzing this incident. Let me try a different approach..."
          (logError "Analysis failed:" e
             (showThinkingState "Hmm, let me take a look at this incident..." w).2)).2).
Proof.
  intros Hi Hicon Hshow.
  pose proof (showThinkingState_present
                "Hmm, let me take a look at this incident..." w classes Hicon) as Hthink.
  destruct (analysisSteps_unstructured features similarity updatePatterns maxSize
              maxAge services calculateConfidence clock i
              (showThinkingState "Hmm, let me take a look at this incident..." w).2 Hi)
    as [e He].
  exists e. rewrite Hthink in He |- *. simpl in *.
  erewrite analyze_steps_threw; [|exact Hthink|exact He].
  by apply analysisFailed_shown.
Qed.

(** The theorem on the string ["phishing"] passed as the incident. *)
Lemma analyzeIncidentWithContext_unstructured_witness :
  ∃ w',
    analyzeIncidentWithContext Sample.features calculateSimilarity
      Sample.updatePatterns None None Sample.services Sample.calculateConfidence
      Sample.showError (mkClock 5 6 7) (VString "phishing")
      (Sample.storeOf [(1, ["a"])]) = (inr None, w') ∧
    JsMap.keys (previousCases w') = ["case_1"].
Proof.
  destruct (analyzeIncidentWithContext_unstructured Sample.features calculateSimilarity
              Sample.updatePatterns None None Sample.services Sample.calculateConfidence
              Sample.showError (mkClock 5 6 7) (VString "phishing")
              (Sample.storeOf [(1, ["a"])]) ["toad-icon"] eq_refl eq_refl
              (λ _ _, eq_refl)) as [e He].
  eexists. split; [exact He|]. reflexivity.
Defined.

(** ** The thinking bubble *)

(** X12.  On a page with the icon, [showThinkingState] never removes
    what it drew: two calls leave two bubbles after the earlier children
    of the body, in the order of the calls, while the class [thinking]
    is added to the icon once; the second call leaves the class list
    as the first call made it, and the store is not touched. *)
Theorem showThinkingState_accumulates
    (msg1 msg2 : string) (w : Companion) (classes : list string) :
  toadIcon (dom w) = Some classes →
  ∃ w1 w2 classes',
    showThinkingState msg1 w = (inr tt, w1) ∧
    showThinkingState msg2 w1 = (inr tt, w2) ∧
    toadIcon (dom w1) = Some classes' ∧ toadIcon (dom w2) = Some classes' ∧
    "thinking" ∈ classes' ∧
    (classes' = classes ∨ classes' = classes ++ ["thinking"]) ∧
    bodyChildren (dom w2)
    = bodyChildren (dom w)
      ++ [mkElement "thinking-bubble" msg1; mkElement "thinking-bubble" msg2] ∧
    previousCases w2 = previousCases w ∧ learningPatterns w2 = learningPatterns w.
Proof.
  intros Hicon.
  assert ("thinking" ∈ classListAdd "thinking" classes) as Hin.
  { unfold classListAdd. destruct (decide _); [done|].
    apply elem_of_app. right. apply list_elem_of_here. }
  eexists _, _, (classListAdd "thinking" classes).
  split; [by apply showThinkingState_present|].
  split; [by apply showThinkingState_present|]. simpl.
  split; [done|]. split.
  { unfold classListAdd at 1. by rewrite decide_True. }
  split; [done|]. split.
  { unfold classListAdd. destruct (decide _); auto. }
  by rewrite <- app_assoc.
Qed.

(** The theorem on a page whose icon carries its own class only. *)
Lemma showThinkingState_accumulates_witness :
  ∃ w2,
    (let* _ := showThinkingState "first" in showThinkingState "second")
      (newCompanion Sample.page) = (inr tt, w2) ∧
    toadIcon (dom w2) = Some ["toad-icon"; "thinking"] ∧
    textContent <$> bodyChildren (dom w2) = ["first"; "second"].
Proof.
  destruct (showThinkingState_accumulates "first" "second"
              (newCompanion Sample.page) ["toad-icon"] eq_refl)
    as (w1 & w2 & classes' & H1 & H2 & _ & Hicon & _ & _ & Hbody & _).
  exists w2. unfold bind. rewrite H1, H2. split; [done|].
  vm_compute in H1. injection H1 as <-.
  vm_compute in H2. injection H2 as <-.
  split; reflexivity.
Defined.

(** ** Escaping *)

Lemma append_assoc (s1 s2 s3 : string) : (s1 +:+ s2) +:+ s3 = s1 +:+ (s2 +:+ s3).
Proof.
  induction s1 as [|a s1 IH]; [done|].
  change (String a ((s1 +:+ s2) +:+ s3) = String a (s1 +:+ (s2 +:+ s3))).
  by rewrite IH.
Qed.

Lemma append_nil_r (s : string) : s +:+ "" = s.
Proof.
  induction s as [|a s IH]; [done|].
  change (String a (s +:+ "") = String a s). by rewrite IH.
Qed.

Lemma chars_append (s1 s2 : string) : chars (s1 +:+ s2) = chars s1 ++ chars s2.
Proof.
  induction s1 as [|a s1 IH]; [done|].
  change (a :: chars (s1 +:+ s2) = a :: (chars s1 ++ chars s2)). by rewrite IH.
Qed.

Lemma chars_inj (s1 s2 : string) : chars s1 = chars s2 → s1 = s2.
Proof.
  revert s2. induction s1 as [|a s1 IH]; intros [|b s2]; simpl; try done.
  intros [= -> Hs]. f_equal. by apply IH.
Qed.

Lemma replaceAll_append c rep s1 s2 :
  replaceAll c rep (s1 +:+ s2) = replaceAll c rep s1 +:+ replaceAll c rep s2.
Proof.
  induction s1 as [|a s1 IH]; [done|].
  change (String a s1 +:+ s2) with (String a (s1 +:+ s2)).
  cbn [replaceAll]. rewrite IH.
  destruct (decide (a = c)); [|done].
  symmetry. apply append_assoc.
Qed.

Lemma escapeAll_append (s1 s2 : string) :
  escapeAll (s1 +:+ s2) = escapeAll s1 +:+ escapeAll s2.
Proof.
  induction s1 as [|a s1 IH]; [done|].
  change (String a s1 +:+ s2) with (String a (s1 +:+ s2)).
  cbn [escapeAll]. rewrite IH. symmetry. apply append_assoc.
Qed.

(** The five replacements in a row rewrite each character on its own:
    none of them changes what an earlier one wrote. *)
Lemma replacements_escapeAll (s : string) :
  replaceAll "'"%char "&#039;"
    (replaceAll "034"%char "&quot;"
       (replaceAll ">"%char "&gt;"
          (replaceAll "<"%char "&lt;"
             (replaceAll "&"%char "&amp;" s))))
  = escapeAll s.
Proof.
  induction s as [|a s IH]; [done|].
  cbn [escapeAll]. rewrite <- IH. unfold escapeChar.
  cbn [replaceAll].
  repeat (destruct (decide (a = _)) as [->|?]; simpl;
          rewrite ?replaceAll_append; [reflexivity|]).
  reflexivity.
Qed.

Lemma sanitizeHTML_escapeAll (s : string) : sanitizeHTML (Some s) = escapeAll s.
Proof.
  unfold sanitizeHTML, isBlank. case_bool_decide as Hs.
  - by rewrite Hs.
  - apply replacements_escapeAll.
Qed.

Lemma escapeChar_plain (c : ascii) : ¬ isSpecial c → escapeChar c = String c "".
Proof.
  unfold isSpecial, escapeChar. intros Hc.
  repeat (destruct (decide (c = _)) as [->|?]; [exfalso; apply Hc; auto 6|]).
  done.
Qed.

Lemma escapeChar_safe (a c : ascii) :
  c ∈ chars (escapeChar a) →
  c ≠ "<"%char ∧ c ≠ ">"%char ∧ c ≠ "034"%char ∧ c ≠ "'"%char.
Proof.
  unfold escapeChar.
  repeat (destruct (decide (a = _)) as [->|?];
          [simpl; intros Hc;
           repeat (apply elem_of_cons in Hc as [->|Hc]; [done|]);
           by apply elem_of_nil in Hc|]).
  simpl. intros Hc. apply list_elem_of_singleton in Hc as ->. done.
Qed.

(** X13.  [sanitizeHTML] rewrites a text character by character: [&],
    [<], [>], the double quote and the apostrophe become [&amp;],
    [&lt;], [&gt;], [&quot;] and [&#039;], and every other character is
    kept; the five replacements, though run one after the other, do not
    rewrite each other's output.  So the function distributes over
    concatenation, leaves a text without these characters as it is, and
    gives the empty string for a missing text. *)
Theorem sanitizeHTML_per_character (s s' : string) :
  sanitizeHTML (Some s) = escapeAll s ∧
  sanitizeHTML (Some (s +:+ s')) = sanitizeHTML (Some s) +:+ sanitizeHTML (Some s') ∧
  (Forall (λ c, ¬ isSpecial c) (chars s) → sanitizeHTML (Some s) = s) ∧
  sanitizeHTML None = "".
Proof.
  rewrite !sanitizeHTML_escapeAll. repeat split.
  - apply escapeAll_append.
  - induction s as [|a s IH]; [done|].
    intros Hall. apply Forall_cons in Hall as [Ha Hall].
    cbn [escapeAll]. rewrite escapeChar_plain by done. by rewrite IH.
Qed.

(** The theorem on a script tag and on a plain sentence. *)
Lemma sanitizeHTML_per_character_witness :
  sanitizeHTML (Some "<script>alert('x')</script>")
  = "&lt;script&gt;alert(&#039;x&#039;)&lt;/script&gt;" ∧
  sanitizeHTML (Some "Credential phishing.") = "Credential phishing.".
Proof.
  split; [reflexivity|].
  apply (sanitizeHTML_per_character "Credential phishing." "").
  vm_compute. repeat constructor; unfold isSpecial; intros [?|[?|[?|[?|?]]]]; done.
Defined.

(** X14.  The output of [sanitizeHTML] holds no [<], no [>], no double
    quote and no apostrophe, whatever the text was. *)
Theorem sanitizeHTML_no_markup (str : option string) (c : ascii) :
  c ∈ chars (sanitizeHTML str) →
  c ≠ "<"%char ∧ c ≠ ">"%char ∧ c ≠ "034"%char ∧ c ≠ "'"%char.
Proof.
  destruct str as [s|]; [|by intros Hc; apply elem_of_nil in Hc].
  rewrite sanitizeHTML_escapeAll.
  induction s as [|a s IH]; [by intros Hc; apply elem_of_nil in Hc|].
  cbn [escapeAll]. rewrite chars_append. intros Hc.
  apply elem_of_app in Hc as [Hc|Hc]; [by eapply escapeChar_safe|by apply IH].
Qed.

(** The theorem on the first character written for a tag. *)
Lemma sanitizeHTML_no_markup_witness :
  "&"%char ∈ chars (sanitizeHTML (Some "<b>")) ∧ "&"%char ≠ "<"%char.
Proof.
  split; [apply list_elem_of_here|].
  apply (sanitizeHTML_no_markup (Some "<b>") "&"%char). apply list_elem_of_here.
Defined.

(** X15.  [sanitizeHTML] loses nothing: two texts with the same output
    are the same text. *)
Theorem sanitizeHTML_injective (s1 s2 : string) :
  sanitizeHTML (Some s1) = sanitizeHTML (Some s2) → s1 = s2.
Proof.
  rewrite !sanitizeHTML_escapeAll. revert s2.
  induction s1 as [|a s1 IH]; intros [|b s2]; cbn [escapeAll]; unfold escapeChar;
    intros Heq; try done.
  - repeat (destruct (decide (b = _)) as [->|?]; [by cbv [String.app] in Heq|]).
    by cbv [String.app] in Heq.
  - repeat (destruct (decide (a = _)) as [->|?]; [by cbv [String.app] in Heq|]).
    by cbv [String.app] in Heq.
  - repeat (destruct (decide (a = _)) as [->|?]);
      repeat (destruct (decide (b = _)) as [->|?]);
      cbv [String.app] in Heq; try discriminate;
      injection Heq; intros; subst; try congruence; f_equal; by apply IH.
Qed.

(** The theorem on two equal outputs. *)
Lemma sanitizeHTML_injective_witness :
  sanitizeHTML (Some "a<b") = sanitizeHTML (Some ("a" +:+ "<b")) ∧
  "a<b" = "a" +:+ "<b".
Proof.
  split; [reflexivity|].
  by apply (sanitizeHTML_injective "a<b" ("a" +:+ "<b")).
Defined.

(** ** The panel *)

Lemma omap_id_Some {A B} (f : A → B) (l : list A) :
  omap id ((λ x, Some (f x)) <$> l) = f <$> l.
Proof. induction l as [|x l IH]; [done|]. simpl. f_equal. exact IH. Qed.

Section PanelFacts.
Variable roundPercent : Q → Z.
Variable parse : string → option string.

(** X16.  [showMessage] appends one element to the message container
    and keeps what was there; the HTML it writes holds no [<], [>],
    double quote or apostrophe, so a message cannot bring a tag or an
    attribute into the panel. *)
Theorem showMessage_appends_escaped
    (msg : option string) (type : string) (ui : CompanionUI) (old : list Node) :
  messageContainer ui = Some old →
  messageContainer (showMessage msg type ui)
  = Some (old ++ [Single (Html ("companion-message " +:+ type) (sanitizeHTML msg))]) ∧
  (∀ c, c ∈ chars (sanitizeHTML msg) →
        c ≠ "<"%char ∧ c ≠ ">"%char ∧ c ≠ "034"%char ∧ c ≠ "'"%char) ∧
  uiConsole (showMessage msg type ui) = uiConsole ui.
Proof.
  intros Hc. unfold showMessage. rewrite Hc. simpl.
  split; [done|]. split; [|done].
  destruct msg as [s|]; [|by intros c Hin; apply elem_of_nil in Hin].
  rewrite sanitizeHTML_escapeAll.
  induction s as [|a s IH]; intros c; [by intros Hin; apply elem_of_nil in Hin|].
  cbn [escapeAll]. rewrite chars_append. intros Hin.
  apply elem_of_app in Hin as [Hin|Hin]; [by eapply escapeChar_safe|by apply IH].
Qed.

(** The theorem on a message that carries a tag. *)
Lemma showMessage_appends_escaped_witness :
  let ui := mkCompanionUI true "idle" (Some []) None [] in
  messageContainer ui = Some [] ∧
  messageContainer (showMessage (Some "<img src=x>") "info" ui)
  = Some [Single (Html "companion-message info" "&lt;img src=x&gt;")].
Proof.
  intros ui. split; [reflexivity|].
  destruct (showMessage_appends_escaped (Some "<img src=x>") "info" ui [] eq_refl)
    as (Hc & _).
  rewrite Hc. reflexivity.
Defined.

(** X17.  The last analysis wins: [showAnalysis] clears the message
    container first, so showing an analysis after another one leaves the
    panel exactly as showing it alone. *)
Theorem showAnalysis_replaces (a b : PanelAnalysis) (ui : CompanionUI) :
  showAnalysis roundPercent parse a (showAnalysis roundPercent parse b ui)
  = showAnalysis roundPercent parse a ui.
Proof.
  unfold showAnalysis, showMessage; simpl.
  destruct (messageContainer ui) as [old|]; reflexivity.
Qed.

(** X18.  [showAnalysis] after [showThinking] drops the thinking message
    from the container, as if it had never been shown, and sets the
    state to ["analysis"]; it does not put the class [hidden] back on
    the thinking indicator, which [showThinking] removed. *)
Theorem showAnalysis_after_showThinking
    (a : PanelAnalysis) (msg : option string) (ui : CompanionUI) :
  let ui' := showAnalysis roundPercent parse a (showThinking msg ui) in
  messageContainer ui' = messageContainer (showAnalysis roundPercent parse a ui) ∧
  uiState ui' = "analysis" ∧
  thinkingIndicator ui' = classListRemove "hidden" <$> thinkingIndicator ui ∧
  (∀ classes, thinkingIndicator ui' = Some classes → "hidden" ∉ classes).
Proof.
  unfold showAnalysis, showThinking, showMessage; simpl.
  destruct (messageContainer ui) as [old|]; simpl;
    (repeat split; [done..|]);
    intros classes Hcl; destruct (thinkingIndicator ui) as [cs|]; try done;
    injection Hcl as <-; unfold classListRemove;
    intros Hin; apply list_elem_of_filter in Hin as [Hne _]; done.
Qed.


End PanelFacts.


